(** * d1-repl: the command loop and the subprocess executor of [mod.ts]

    A shallow embedding of [mod.ts]: start-up argument handling, the
    [line] handler of the read-eval-print loop, the construction of the
    [wrangler d1 execute] command line and the rendering of its JSON
    response, followed by the properties the specification states about
    them.

    Conventions of the embedding.
    - JavaScript strings are [string]s whose characters are read as the
      code units U+0000 to U+00FF.
    - A value that may be [undefined] is an [option]; [None] is
      [undefined].
    - Console output, prompts, subprocess calls and [process.exit] are
      recorded in order as a list of [event]s.
    - The host runtime ([node:fs], [node:child_process], [JSON]) is a
      parameter, class [Host].
    - The argument parser of the runtime, [parseArgs], is module [Util];
      [program] is the run from the argument vector, over lines and
      [SIGINT] signals, and [main] the run from a parsed vector over
      lines only. *)

From Stdlib Require Import Bool Arith Lia List String Ascii ZArith.
From Stdlib Require Import PrimFloat DecimalString.
From Stdlib Require FloatOps FloatAxioms SpecFloat.
Import ListNotations.
Local Open Scope list_scope.
Local Open Scope string_scope.

Set Warnings "-register-all".

(* ================================================================== *)
(** * Definitions *)
(* ================================================================== *)

(** ** JavaScript string primitives used by [mod.ts] *)

Module JS.

(** Line feed, written [\n] in the source. *)
Definition nl : string := String "010"%char EmptyString.

(** WhiteSpace and LineTerminator code units below U+0100: TAB, LF, VT,
    FF, CR, SPACE and NO-BREAK SPACE. *)
Definition isWhiteSpace (c : ascii) : bool :=
  let n := nat_of_ascii c in
  (((9 <=? n) && (n <=? 13)) || (n =? 32) || (n =? 160))%nat.

(** [String.prototype.trimStart]. *)
Fixpoint trimStart (s : string) : string :=
  match s with
  | EmptyString => EmptyString
  | String c r => if isWhiteSpace c then trimStart r else s
  end.

(** [String.prototype.trimEnd]. *)
Fixpoint trimEnd (s : string) : string :=
  match s with
  | EmptyString => EmptyString
  | String c r =>
      match trimEnd r with
      | EmptyString => if isWhiteSpace c then EmptyString else String c EmptyString
      | r' => String c r'
      end
  end.

(** [String.prototype.trim]. *)
Definition trim (s : string) : string := trimEnd (trimStart s).

(** Lower-case mapping of one code unit below U+0100: [A]-[Z] and the
    Latin-1 capitals U+00C0-U+00DE (U+00D7, the multiplication sign,
    apart) move up by 32. *)
Definition lowerChar (c : ascii) : ascii :=
  let n := nat_of_ascii c in
  if (((65 <=? n) && (n <=? 90))
      || ((192 <=? n) && (n <=? 222) && negb (n =? 215)))%nat
  then ascii_of_nat (n + 32) else c.

(** [String.prototype.toLowerCase]. *)
Fixpoint toLowerCase (s : string) : string :=
  match s with
  | EmptyString => EmptyString
  | String c r => String (lowerChar c) (toLowerCase r)
  end.

(** [String.prototype.startsWith]. *)
Definition startsWith (s p : string) : bool := String.prefix p s.

(** [s.split(sep)] for a one-character separator: the pieces between
    the separators, in order; the empty string gives one empty piece. *)
Fixpoint split (sep : ascii) (s : string) : list string :=
  match s with
  | EmptyString => [EmptyString]
  | String c r =>
      if Ascii.eqb c sep then EmptyString :: split sep r
      else match split sep r with
           | h :: t => String c h :: t
           | [] => [String c EmptyString]
           end
  end.

(** [a.join(sep)]. *)
Definition join (sep : string) (a : list string) : string :=
  String.concat sep a.

(** Truthiness of a string that may be [undefined]. *)
Definition truthyString (s : option string) : bool :=
  match s with
  | None => false
  | Some EmptyString => false
  | Some _ => true
  end.

(** [`${s}`] for a string that may be [undefined]. *)
Definition template (s : option string) : string :=
  match s with
  | Some x => x
  | None => "undefined"
  end.

(** [`${n}`] for an integer. *)
Definition numberToString (n : Z) : string :=
  NilZero.string_of_int (Z.to_int n).

End JS.

(** ** Start-up arguments *)

(** The result of [parseArgs]: the three boolean options and the
    positional arguments. An option that was not given ([undefined]) is
    [false]. *)
Record ParsedArgs : Type := mkParsedArgs {
  local : bool;
  remote : bool;
  help : bool;
  positionals : list string
}.

(** What may be passed to [console.log] and [console.error]. *)
Inductive exn : Type :=
| HostError (what : string)      (* an error object made by the runtime *)
| Error (message : string)       (* [new Error(message)] *)
| SyntaxError (text : string)    (* [JSON.parse] refused [text] *)
| TypeError (what : string).

(** ** JSON values *)

(** A value produced by [JSON.parse]. An object is the list of its own
    properties, each key once; a number is a binary64 float. *)
Inductive json : Type :=
| JNull
| JBool (b : bool)
| JNum (x : float)
| JStr (s : string)
| JArr (items : list json)
| JObj (props : list (string * json)).

Module Json.

(** Own property [k] of an object's property list. *)
Fixpoint lookup (k : string) (props : list (string * json)) : option json :=
  match props with
  | [] => None
  | (k', v) :: rest => if String.eqb k k' then Some v else lookup k rest
  end.

(** [ToBoolean] on a value that may be [undefined]. *)
Definition truthy (v : option json) : bool :=
  match v with
  | None => false
  | Some JNull => false
  | Some (JBool b) => b
  | Some (JNum x) => negb (PrimFloat.eqb x 0%float) && PrimFloat.eqb x x
  | Some (JStr s) => negb (String.eqb s EmptyString)
  | Some (JArr _) => true
  | Some (JObj _) => true
  end.

(** [v.name] for a property name other than [length] that no prototype
    defines ([success], [results], [meta]): a [TypeError] on [null],
    the own property of an object, [undefined] on anything else. *)
Definition get (v : json) (name : string) : exn + option json :=
  match v with
  | JNull => inl (TypeError ("Cannot read properties of null (reading '" ++ name ++ "')"))
  | JObj props => inr (lookup name props)
  | _ => inr None
  end.

(** The value of [v.length]: a count for arrays and strings, the own
    property of an object, [undefined] otherwise. *)
Inductive lengthOf : Type :=
| Count (n : nat)
| Prop_ (v : option json).

Definition length (v : json) : lengthOf :=
  match v with
  | JArr items => Count (List.length items)
  | JStr s => Count (String.length s)
  | JObj props => Prop_ (lookup "length" props)
  | _ => Prop_ None
  end.

(** [Object.keys(v).length] for a truthy [v]: the own enumerable
    properties, which are the indices of an array or a string. *)
Definition keysLength (v : json) : nat :=
  match v with
  | JObj props => List.length props
  | JArr items => List.length items
  | JStr s => String.length s
  | _ => 0
  end.

(** The one-character strings a [for ... of] loop takes from a string. *)
Fixpoint chars (s : string) : list json :=
  match s with
  | EmptyString => []
  | String c r => JStr (String c EmptyString) :: chars r
  end.

(** The items a [for ... of] loop visits: the elements of an array, the
    characters of a string; other values are not iterable. *)
Definition iterate (v : json) : exn + list json :=
  match v with
  | JArr items => inr items
  | JStr s => inr (chars s)
  | _ => inl (TypeError "parsed is not iterable")
  end.

End Json.

(** ** Observable events *)

Inductive arg : Type :=
| Text (s : string)
| Value (v : option json)    (* a value, printed by the console's inspector *)
| Thrown (e : exn).

Inductive event : Type :=
| console_log (args : list arg)
| console_error (args : list arg)
| rl_prompt
| spawn (command : string) (args : list string)
| process_exit (code : Z).

(** ** Start-up: lines 28-62 of [mod.ts] *)

Definition usage : string :=
"
Usage: sqlite-repl.ts [database-name] [options]

Options:
  -l, --local     Use local database
  -r, --remote    Use remote database
  -h, --help      Show this help message

Examples:
  sqlite-repl.ts my-database --local
  sqlite-repl.ts my-database --remote
  sqlite-repl.ts --help
".

(** The module-level constants [databaseName] and [flags]. *)
Record Session : Type := mkSession {
  databaseName : string;
  flags : list string
}.

(** [flags]: lines 60-62. *)
Definition buildFlags (a : ParsedArgs) : list string :=
  ((if local a then ["--local"] else []) ++
   (if remote a then ["--remote"] else []))%list.

(** Lines 28-62: the help text, then the two checks, then [flags]. The
    result is the session the REPL may be started for, or [None] when
    the process has exited. [!databaseName] holds for [undefined] and
    for the empty string. *)
Definition startup (a : ParsedArgs) : list event * option Session :=
  if help a then ([console_log [Text usage]; process_exit 0], None)
  else
    match nth_error (positionals a) 0 with
    | None | Some EmptyString =>
        ([console_error [Text "Database name is required"]; process_exit 1], None)
    | Some databaseName =>
        if local a && remote a then
          ([console_error [Text "Cannot use both local and remote flags"];
            process_exit 1], None)
        else
          ([], Some (mkSession databaseName (buildFlags a)))
    end.

(** ** The host runtime *)

(** An absolute directory or file path: its components, innermost first;
    the empty list is the root of the file system. *)
Definition path : Type := list string.

Module Path.

(** [dirname]: the parent directory; the root is its own parent. *)
Definition dirname (p : path) : path := List.tl p.

(** [join(dir, name)] for a single file name. *)
Definition join (dir : path) (name : string) : path := name :: dir.

End Path.

(** The object [spawnSync] returns, as far as [executeSQL] reads it.
    [status] is [None] for [null] (the child was ended by a signal). *)
Record SpawnSyncReturns : Type := mkSpawnSyncReturns {
  error : option exn;
  status : option Z;
  stdout : string
}.

(** The part of [process] that does not change while the REPL runs:
    the two environment variables read and the working directory. *)
Record Env : Type := mkEnv {
  npm_config_user_agent : option string;
  DEBUG : option string;
  cwd : path
}.

(** The runtime outside [mod.ts]. [World] is the state of the machine the
    subprocess acts on (file system, databases); [spawnSync] may throw
    instead of returning; [JSON_parse] is [None] where [JSON.parse]
    throws; [JSON_stringify v] is [JSON.stringify(v, null, 2)];
    [ToNumber] is the runtime's conversion of a string, array or object
    to a number, which throws where the value has no primitive. *)
Class Host : Type := mkHost {
  World : Type;
  existsSync : World -> path -> bool;
  spawnSync : World -> string -> list string -> World * (exn + SpawnSyncReturns);
  JSON_parse : string -> option json;
  JSON_stringify : json -> string;
  ToNumber : json -> exn + float
}.

(** ** Lock-file search: [findPackageManager], lines 64-85 *)

Section FindPackageManager.

Context {host : Host}.
Variable w : World.

(** One turn of the loop body: the five probes of a directory, in the
    order of the source. [None]: no lock file here, go to the parent. *)
Definition probe (currentDir : path) : option string :=
  if existsSync w (Path.join currentDir "pnpm-lock.yaml") then Some "pnpm"
  else if existsSync w (Path.join currentDir "yarn.lock") then Some "yarn"
  else if existsSync w (Path.join currentDir "bun.lock") then Some "bun"
  else if existsSync w (Path.join currentDir "package-lock.json") then Some "npm"
  else if existsSync w (Path.join currentDir "deno.lock") then Some "deno"
  else None.

(** The [while (dirname(currentDir) !== currentDir)] loop. The test
    fails exactly at the root, which is therefore never probed. *)
Fixpoint findPackageManagerFrom (currentDir : path) : string :=
  match currentDir with
  | [] => "npx"
  | _ :: parent =>
      match probe currentDir with
      | Some pm => pm
      | None => findPackageManagerFrom parent
      end
  end.

Definition findPackageManager (env : Env) : string :=
  findPackageManagerFrom (cwd env).

End FindPackageManager.

(** ** The executor: [executeSQL], lines 158-246 *)

(** Statements of the [try] block: the events they emit, then what they
    throw or return. *)
Definition Try (A : Type) : Type := list event * (exn + A).

Module TryMonad.

Definition ret {A} (a : A) : Try A := ([], inr a).

Definition throw {A} (e : exn) : Try A := ([], inl e).

Definition bind {A B} (m : Try A) (k : A -> Try B) : Try B :=
  match m with
  | (t1, inl e) => (t1, inl e)
  | (t1, inr a) =>
      match k a with
      | (t2, r) => ((t1 ++ t2)%list, r)
      end
  end.

Definition emit (e : event) : Try unit := ([e], inr tt).

(** A computation that only throws or returns. *)
Definition lift {A} (r : exn + A) : Try A := ([], r).

End TryMonad.

Import TryMonad.

Notation "x <- m ;; k" := (bind m (fun x => k))
  (at level 61, m at next level, right associativity).
Notation "m ;;; k" := (bind m (fun _ => k))
  (at level 61, right associativity).

Section SQLiteREPL.

Context {host : Host}.
Variable env : Env.
Variable session : Session.

(** Lines 164-183: the words that start the command line. *)
Definition launcher (w : World) : list string :=
  let isInPackageManager := npm_config_user_agent env in
  if JS.truthyString isInPackageManager then ["wrangler"]
  else
    let packageManager := findPackageManager w env in
    if String.eqb packageManager "deno" then ["deno"; "run"; "-A"; "npm:wrangler"]
    else if String.eqb packageManager "pnpm" then ["pnpm"; "wrangler"]
    else if String.eqb packageManager "yarn" then ["yarn"; "wrangler"]
    else if String.eqb packageManager "bun" then ["bun"; "wrangler"]
    else ["npx"; "wrangler"].

(** Lines 185-193: what [args.push] appends for a statement. *)
Definition d1Args (sql : string) : list string :=
  (["d1"; "execute"; databaseName session] ++ flags session
     ++ ["--json"; "--command"; sql])%list.

(** Lines 197-199: the command line shown when [DEBUG] is set. *)
Definition debugLine (command : string) (args : list string) : Try unit :=
  if JS.truthyString (DEBUG env) then
    emit (console_log
            [Text ("Using command: " ++ command ++ " " ++ JS.join " " args)])
  else ret tt.

(** [results.length === 0]. *)
Definition lengthIsZero (l : Json.lengthOf) : bool :=
  match l with
  | Json.Count n => Nat.eqb n 0
  | Json.Prop_ (Some (JNum x)) => PrimFloat.eqb x 0%float
  | Json.Prop_ _ => false
  end.

(** [results.length > 0]: [undefined], [null], booleans and numbers are
    compared as numbers; other values are first converted by the host. *)
Definition lengthGreaterThanZero (l : Json.lengthOf) : exn + bool :=
  match l with
  | Json.Count n => inr (Nat.ltb 0 n)
  | Json.Prop_ None => inr false
  | Json.Prop_ (Some JNull) => inr false
  | Json.Prop_ (Some (JBool b)) => inr b
  | Json.Prop_ (Some (JNum x)) => inr (PrimFloat.ltb 0%float x)
  | Json.Prop_ (Some v) =>
      match ToNumber v with
      | inl e => inl e
      | inr x => inr (PrimFloat.ltb 0%float x)
      end
  end.

(** [displayResults], lines 239-246. *)
Definition displayResults (results : json) : Try unit :=
  if lengthIsZero (Json.length results) then
    emit (console_log [Text "No results"])
  else
    emit (console_log [Text (JSON_stringify results)]).

(** [item.results && item.results.length > 0]. *)
Definition hasResults (results : option json) : exn + bool :=
  match results with
  | Some r =>
      if Json.truthy results then lengthGreaterThanZero (Json.length r)
      else inr false
  | None => inr false
  end.

(** [item.meta && Object.keys(item.meta).length > 0]. *)
Definition hasMeta (meta : option json) : bool :=
  match meta with
  | Some m => Json.truthy meta && Nat.ltb 0 (Json.keysLength m)
  | None => false
  end.

(** The body of the [for] loop, lines 219-232. *)
Definition renderItem (item : json) : Try unit :=
  success <- lift (Json.get item "success") ;;
  if Json.truthy success then
    emit (console_log [Text "Success"]) ;;;
    results <- lift (Json.get item "results") ;;
    nonEmpty <- lift (hasResults results) ;;
    (match results, nonEmpty with
     | Some r, true => displayResults r
     | _, _ => emit (console_log [Text "No results returned"])
     end) ;;;
    meta <- lift (Json.get item "meta") ;;
    if hasMeta meta then emit (console_log [Text "Meta:"; Value meta])
    else ret tt
  else
    emit (console_error [Text "Query failed"]) ;;;
    meta <- lift (Json.get item "meta") ;;
    emit (console_error [Text "Meta:"; Value meta]).

(** [for (const item of parsed)] over the items already taken. *)
Fixpoint forEach (items : list json) : Try unit :=
  match items with
  | [] => ret tt
  | item :: rest => renderItem item ;;; forEach rest
  end.

(** [`${result.status}`]. *)
Definition statusToString (st : option Z) : string :=
  match st with
  | Some n => JS.numberToString n
  | None => "null"
  end.

(** [result.status !== 0]. *)
Definition statusIsNotZero (st : option Z) : bool :=
  match st with
  | Some n => negb (Z.eqb n 0)
  | None => true
  end.

(** Lines 206-233: what is done with the object [spawnSync] returned. *)
Definition report (result : SpawnSyncReturns) : Try unit :=
  match error result with
  | Some e => throw e
  | None =>
      if statusIsNotZero (status result) then
        throw (Error ("Command failed with status "
                        ++ statusToString (status result) ++ ": "
                        ++ stdout result))
      else
        match JSON_parse (stdout result) with
        | None => throw (SyntaxError (stdout result))
        | Some parsed =>
            items <- lift (Json.iterate parsed) ;;
            forEach items
        end
  end.

(** The [try] block, lines 162-233: the command line is built, its first
    word is taken off as the command, and the subprocess is run in the
    world [w], which it may change. *)
Definition tryBlock (sql : string) (w : World) : World * Try unit :=
  let args := (launcher w ++ d1Args sql)%list in
  match args with
  | [] => (w, throw (TypeError "command is undefined"))
  | command :: args =>
      match spawnSync w command args with
      | (w', r) =>
          (w', debugLine command args ;;;
               emit (spawn command args) ;;;
               result <- lift r ;;
               report result)
      end
  end.

(** The [catch] clause, lines 234-236, applied to the [try] block. *)
Definition caught (r : Try unit) : list event :=
  match r with
  | (t, inr _) => t
  | (t, inl e) => (t ++ [console_error [Text "Execution failed:"; Thrown e]])%list
  end.

(** [executeSQL], lines 158-237: the announcement, then the [try] block
    with its [catch]. *)
Definition executeSQL (sql : string) (w : World) : list event * World :=
  let announce := console_log [Text (JS.nl ++ "Executing: " ++ sql)] in
  match tryBlock sql w with
  | (w', r) => (announce :: caught r, w')
  end.

(** [showTables], lines 248-252. *)
Definition showTables : World -> list event * World :=
  let sql :=
    "SELECT name FROM sqlite_master WHERE type='table' AND name NOT LIKE 'sqlite_%' ORDER BY name;" in
  executeSQL sql.

(** [showSchema], lines 254-266. *)
Definition showSchema (tableName : option string) : World -> list event * World :=
  let sql :=
    if JS.truthyString tableName then
      "SELECT sql FROM sqlite_master WHERE type='table' AND name='"
        ++ JS.template tableName ++ "';"
    else
      "SELECT name, sql FROM sqlite_master WHERE type='table' AND name NOT LIKE 'sqlite_%' ORDER BY name;"
  in
  executeSQL sql.

Definition helpText : string :=
"
SQLite REPL Commands:
  .help     - Show this help message
  .exit     - Exit the REPL
  .quit     - Exit the REPL
  .tables   - List all tables
  .schema   - Show all table schemas
  .schema table_name - Show schema for specific table

SQL Commands:
  SELECT * FROM table_name;
  INSERT INTO table_name (col1, col2) VALUES ('val1', 'val2');
  UPDATE table_name SET col1 = 'new_val' WHERE condition;
  DELETE FROM table_name WHERE condition;
  CREATE TABLE table_name (col1 TEXT, col2 INTEGER);
  DROP TABLE table_name;

Examples:
  SELECT * FROM locations LIMIT 5;
  SELECT COUNT(*) FROM locations;
  .tables
  .schema
  .schema locations
    ".

(** [showHelp], lines 268-293. *)
Definition showHelp : list event := [console_log [Text helpText]].

(** [exit], lines 295-299, when the readline interface is already
    closed: [rl.close()] does nothing and [process.exit(0)] ends the
    process. This is the [close] handler of lines 147-149. *)
Definition exitClosed : list event :=
  [console_log [Text (JS.nl ++ "Goodbye!")]; process_exit 0].

(** [exit] when the interface is still open: [rl.close()] marks it closed
    and runs the [close] handler, which is [exit] again and ends the
    process before [rl.close()] returns. *)
Definition exit : list event :=
  console_log [Text (JS.nl ++ "Goodbye!")] :: exitClosed.

(** Where the loop stands after a handler has run. *)
Inductive state : Type :=
| Prompting
| Terminated (code : Z).

(** [this.rl.prompt(); return] after a call of [executeSQL]. *)
Definition thenPrompt (r : list event * World) : list event * World * state :=
  match r with
  | (t, w') => ((t ++ [rl_prompt])%list, w', Prompting)
  end.

(** The [line] handler, lines 107-145. *)
Definition onLine (input : string) (w : World) : list event * World * state :=
  let trimmed := JS.trim input in
  if String.eqb trimmed "" then ([rl_prompt], w, Prompting)
  else if String.eqb (JS.toLowerCase trimmed) ".exit"
          || String.eqb (JS.toLowerCase trimmed) ".quit" then
    (exit, w, Terminated 0)
  else if String.eqb (JS.toLowerCase trimmed) ".help" then
    ((showHelp ++ [rl_prompt])%list, w, Prompting)
  else if String.eqb (JS.toLowerCase trimmed) ".tables" then
    thenPrompt (showTables w)
  else if JS.startsWith (JS.toLowerCase trimmed) ".schema" then
    let tableName := nth_error (JS.split " " trimmed) 1 in
    thenPrompt (showSchema tableName w)
  else
    thenPrompt (executeSQL trimmed w).

(** The [SIGINT] handler, lines 152-155. *)
Definition onSigint : list event :=
  [console_log [Text (JS.nl ++ "Use .exit or .quit to close the REPL")]; rl_prompt].

(** [start], lines 301-310. *)
Definition start : list event :=
  [console_log [Text ("
SQLite REPL for " ++ databaseName session ++ "
Connected to D1 database via Wrangler

Type .help for available commands
Type .exit or .quit to close
    ")]; rl_prompt].

(** The session on a finite input: the lines are handled in turn until a
    handler ends the process; the end of the input closes the interface,
    which runs the [close] handler. *)
Fixpoint runLines (lines : list string) (w : World) : list event * World :=
  match lines with
  | [] => (exitClosed, w)
  | line :: rest =>
      match onLine line w with
      | (t, w', Prompting) =>
          match runLines rest w' with
          | (t', w'') => ((t ++ t')%list, w'')
          end
      | (t, w', Terminated _) => (t, w')
      end
  end.

End SQLiteREPL.

(** The whole program: the top-level code, then the REPL on the lines of
    the input. *)
Definition main {host : Host} (env : Env) (a : ParsedArgs) (lines : list string)
    (w : World) : list event * World :=
  match startup a with
  | (t, None) => (t, w)
  | (t, Some session) =>
      match runLines env session lines w with
      | (t', w') => ((t ++ start session ++ t')%list, w')
      end
  end.

(** ** Notions used to state the properties *)

(** Every character of [s] is white space. *)
Fixpoint allWhiteSpace (s : string) : bool :=
  match s with
  | EmptyString => true
  | String c r => JS.isWhiteSpace c && allWhiteSpace r
  end.

(** No character of [s] is white space. *)
Fixpoint noWhiteSpace (s : string) : bool :=
  match s with
  | EmptyString => true
  | String c r => negb (JS.isWhiteSpace c) && noWhiteSpace r
  end.

(** No character of [s] is a space. *)
Fixpoint noSpace (s : string) : bool :=
  match s with
  | EmptyString => true
  | String c r => negb (Ascii.eqb c " ") && noSpace r
  end.

(** The capital of an ASCII letter; other characters are kept. *)
Definition asciiUpper (c : ascii) : ascii :=
  let n := nat_of_ascii c in
  if ((97 <=? n) && (n <=? 122))%nat then ascii_of_nat (n - 32) else c.

(** [a] and [b] are the same text up to the case of ASCII letters. *)
Fixpoint equalsIgnoreCase (a b : string) : bool :=
  match a, b with
  | EmptyString, EmptyString => true
  | String c r, String d r' =>
      Ascii.eqb (asciiUpper c) (asciiUpper d) && equalsIgnoreCase r r'
  | _, _ => false
  end.

(** An event that is console output. *)
Definition isConsole (e : event) : bool :=
  match e with
  | console_log _ | console_error _ => true
  | _ => false
  end.

(** The command lines of the subprocess calls of a trace, command word
    first. *)
Fixpoint spawned (t : list event) : list (list string) :=
  match t with
  | [] => []
  | spawn command args :: r => (command :: args) :: spawned r
  | _ :: r => spawned r
  end.

(** The events of a trace that end the process. *)
Fixpoint exits (t : list event) : list Z :=
  match t with
  | [] => []
  | process_exit code :: r => code :: exits r
  | _ :: r => exits r
  end.

(** The five lock files, most specific first, each with the launcher of
    its package manager. *)
Definition lockFiles : list (string * list string) :=
  [ ("pnpm-lock.yaml", ["pnpm"; "wrangler"]);
    ("yarn.lock", ["yarn"; "wrangler"]);
    ("bun.lock", ["bun"; "wrangler"]);
    ("package-lock.json", ["npx"; "wrangler"]);
    ("deno.lock", ["deno"; "run"; "-A"; "npm:wrangler"]) ].

(** The directories of the upward walk: the working directory and its
    ancestors below the root, nearest first. *)
Fixpoint visited (dir : path) : list path :=
  match dir with
  | [] => []
  | _ :: parent => dir :: visited parent
  end.

(** The directory [d] holds one of the five lock files. *)
Definition holdsLockFile {host : Host} (w : World) (d : path) : bool :=
  existsb (fun lf => existsSync w (Path.join d (fst lf))) lockFiles.

(** The launcher for the most specific lock file of [d]. *)
Definition launcherIn {host : Host} (w : World) (d : path) : list string :=
  match List.find (fun lf => existsSync w (Path.join d (fst lf))) lockFiles with
  | Some lf => snd lf
  | None => ["npx"; "wrangler"]
  end.

(** The launcher as the specification words it: the nearest visited
    directory that holds a lock file decides; without any, [npx]. *)
Definition launcherByLockFile {host : Host} (w : World) (dir : path) : list string :=
  match List.find (holdsLockFile w) (visited dir) with
  | None => ["npx"; "wrangler"]
  | Some d => launcherIn w d
  end.

(** The interface [D1Result], lines 87-91. *)
Record D1Result : Type := mkD1Result {
  meta : list (string * json);
  results : list json;
  success : bool
}.

(** [item] is an object that has the three properties of [b]. *)
Definition isBatch (item : json) (b : D1Result) : Prop :=
  exists props,
    item = JObj props
    /\ Json.lookup "success" props = Some (JBool (success b))
    /\ Json.lookup "results" props = Some (JArr (results b))
    /\ Json.lookup "meta" props = Some (JObj (meta b)).

(** What the specification says is printed for one batch. *)
Definition renderBatch {host : Host} (b : D1Result) : list event :=
  if success b then
    ([console_log [Text "Success"]]
     ++ match results b with
        | [] => [console_log [Text "No results returned"]]
        | _ :: _ => [console_log [Text (JSON_stringify (JArr (results b)))]]
        end
     ++ match meta b with
        | [] => []
        | _ :: _ => [console_log [Text "Meta:"; Value (Some (JObj (meta b)))]]
        end)%list
  else
    [console_error [Text "Query failed"];
     console_error [Text "Meta:"; Value (Some (JObj (meta b)))]].

(** The number of single-quote characters of a text. *)
Fixpoint quotes (s : string) : nat :=
  match s with
  | EmptyString => 0
  | String c r => (if Ascii.eqb c "'" then 1 else 0) + quotes r
  end.

(** [s] without the leading [p], when it starts with [p]. *)
Fixpoint stripPrefix (p s : string) : option string :=
  match p, s with
  | EmptyString, _ => Some s
  | String c p', String d s' => if Ascii.eqb c d then stripPrefix p' s' else None
  | String _ _, EmptyString => None
  end.

(** The rest of an SQLite string literal after its opening quote, up to
    the closing quote, which must be followed by [;] and the end of the
    text: the value of the literal, two quotes in a row standing for
    one. [None] when the text is not of that form. *)
Fixpoint literalThenEnd (s : string) : option string :=
  match s with
  | EmptyString => None
  | String c r =>
      if Ascii.eqb c "'" then
        match r with
        | String d r' =>
            if Ascii.eqb d "'" then option_map (String "'") (literalThenEnd r')
            else if String.eqb r ";" then Some EmptyString
            else None
        | EmptyString => None
        end
      else option_map (String c) (literalThenEnd r)
  end.

(** The table a text asks the schema of, when the text is the statement
    [SELECT sql FROM sqlite_master WHERE type='table' AND name=<literal>;]
    with a well-formed string literal. *)
Definition schemaQueryTable (q : string) : option string :=
  match stripPrefix "SELECT sql FROM sqlite_master WHERE type='table' AND name='" q with
  | Some r => literalThenEnd r
  | None => None
  end.

(** ** A small host for concrete runs *)

Module Demo.

Definition samePath (p q : path) : bool :=
  if list_eq_dec string_dec p q then true else false.

(** The child answers one statement with a batch and fails on others. *)
Definition respond (sql : string) : SpawnSyncReturns :=
  if String.eqb sql "SELECT 1;" then mkSpawnSyncReturns None (Some 0%Z) "[ok]"
  else mkSpawnSyncReturns None (Some 1%Z) "no such table".

Definition batch : json :=
  JObj [("success", JBool true);
        ("results", JArr [JObj [("id", JNum 1%float)]]);
        ("meta", JObj [])].

(** The world is the list of the files that exist. *)
Definition host : Host :=
  {| World := list path;
     existsSync := fun w p => existsb (samePath p) w;
     spawnSync := fun w _ args => (w, inr (respond (List.last args EmptyString)));
     JSON_parse := fun s => if String.eqb s "[ok]" then Some (JArr [batch]) else None;
     JSON_stringify := fun _ => "[ { id: 1 } ]";
     ToNumber := fun _ => inr nan |}.

Definition env : Env := mkEnv None None ["app"; "home"].

Definition session : Session := mkSession "mydb" ["--local"].

Definition args : ParsedArgs := mkParsedArgs true false false ["mydb"].

End Demo.

(** ** Further notions *)

(** The errors the [catch] clause of [executeSQL] has reported in a
    trace. *)
Fixpoint failures (t : list event) : list exn :=
  match t with
  | [] => []
  | console_error [Text _; Thrown e] :: r => e :: failures r
  | _ :: r => failures r
  end.

(** The number of times the prompt is shown in a trace. *)
Fixpoint prompts (t : list event) : nat :=
  match t with
  | [] => 0
  | rl_prompt :: r => S (prompts r)
  | _ :: r => prompts r
  end.

(** The trimmed line is [.exit] or [.quit] in some case of letters. *)
Definition isExitLine (line : string) : bool :=
  String.eqb (JS.toLowerCase (JS.trim line)) ".exit"
  || String.eqb (JS.toLowerCase (JS.trim line)) ".quit".

(** The event is a report of the [catch] clause. *)
Definition reportsFailure (e : event) : bool :=
  match e with
  | console_error [Text _; Thrown _] => true
  | _ => false
  end.

(** An item that is not [null] and whose [results], if it is an object,
    is an array. *)
Definition plainItem (item : json) : bool :=
  match item with
  | JNull => false
  | JObj props =>
      match Json.lookup "results" props with
      | Some (JObj _) => false
      | _ => true
      end
  | _ => true
  end.

(** The names [findPackageManager] returns, each with its lock file, in
    the order of the probes. *)
Definition managers : list (string * string) :=
  [ ("pnpm", "pnpm-lock.yaml");
    ("yarn", "yarn.lock");
    ("bun", "bun.lock");
    ("npm", "package-lock.json");
    ("deno", "deno.lock") ].

(** The six launchers. *)
Definition launchers : list (list string) :=
  [ ["wrangler"]; ["deno"; "run"; "-A"; "npm:wrangler"]; ["pnpm"; "wrangler"];
    ["yarn"; "wrangler"]; ["bun"; "wrangler"]; ["npx"; "wrangler"] ].

(** ** The build script: [scripts/build.js] *)

Module Build.

(** The file system the script works on and the shell it runs commands
    in. [readFileSync] throws for a file it cannot read; [writeFileSync]
    and [run] give the file system they leave and the error they throw,
    if any; [run] is the shell of [bun], which throws unless the command
    exits with status 0. *)
Class Shell : Type := mkShell {
  Files : Type;
  readFileSync : Files -> string -> exn + string;
  writeFileSync : Files -> string -> string -> Files * option exn;
  run : Files -> string -> Files * option exn
}.

(** What the script does to the outside, in order. *)
Inductive step : Type :=
| wrote (file data : string)
| ran (command : string).

(** The own properties of an object after [o.k = v]: the value of a key
    that is there is replaced where it stands, a new key comes last. *)
Fixpoint setProp (k : string) (v : json) (props : list (string * json))
  : list (string * json) :=
  match props with
  | [] => [(k, v)]
  | (k', v') :: rest =>
      if String.eqb k k' then (k, v) :: rest else (k', v') :: setProp k v rest
  end.

(** The own properties [JSON.stringify] writes after [o.k = undefined]:
    a property whose value is [undefined] is left out. *)
Fixpoint removeProp (k : string) (props : list (string * json))
  : list (string * json) :=
  match props with
  | [] => []
  | (k', v') :: rest =>
      if String.eqb k k' then removeProp k rest else (k', v') :: removeProp k rest
  end.

(** [npmPackage.version = version] in a module (strict mode), as the
    value [JSON.stringify] writes afterwards: the assignment throws on
    [null] and on a primitive; a named property of an array is not
    written. *)
Definition assignVersion (npmPackage : json) (version : option json) : exn + json :=
  match npmPackage with
  | JNull => inl (TypeError "Cannot set properties of null (setting 'version')")
  | JObj props =>
      inr (JObj match version with
                | Some v => setProp "version" v props
                | None => removeProp "version" props
                end)
  | JArr items => inr (JArr items)
  | _ => inl (TypeError "Cannot create property 'version' on a primitive")
  end.

Section Script.

Context {host : Host} {shell : Shell}.

(** Statements of the script: the steps they take, the file system they
    leave, and what they throw or return. *)
Definition Script (A : Type) : Type := Files -> list step * Files * (exn + A).

Definition ret {A} (a : A) : Script A := fun fs => ([], fs, inr a).

Definition bind {A B} (m : Script A) (k : A -> Script B) : Script B :=
  fun fs =>
    match m fs with
    | (s1, fs1, inl e) => (s1, fs1, inl e)
    | (s1, fs1, inr a) =>
        match k a fs1 with
        | (s2, fs2, r) => ((s1 ++ s2)%list, fs2, r)
        end
    end.

Definition lift {A} (r : exn + A) : Script A := fun fs => ([], fs, r).

(** [readFileSync(file, 'utf8')]. *)
Definition read (file : string) : Script string :=
  fun fs => ([], fs, readFileSync fs file).

(** [JSON.parse(text)]. *)
Definition parse (text : string) : Script json :=
  lift match JSON_parse text with
       | Some v => inr v
       | None => inl (SyntaxError text)
       end.

(** [writeFileSync(file, data)]. *)
Definition write (file data : string) : Script unit :=
  fun fs =>
    match writeFileSync fs file data with
    | (fs', Some e) => ([wrote file data], fs', inl e)
    | (fs', None) => ([wrote file data], fs', inr tt)
    end.

(** [await $`command`]. *)
Definition sh (command : string) : Script unit :=
  fun fs =>
    match run fs command with
    | (fs', Some e) => ([ran command], fs', inl e)
    | (fs', None) => ([ran command], fs', inr tt)
    end.

(** Lines 6-14 of [scripts/build.js]. *)
Definition build : Script unit :=
  bind (read "deno.json") (fun text =>
  bind (parse text) (fun denoConfig =>
  bind (read "npm/package.json") (fun text' =>
  bind (parse text') (fun npmPackage =>
  bind (lift (Json.get denoConfig "version")) (fun version =>
  bind (lift (assignVersion npmPackage version)) (fun written =>
  bind (write "npm/package.json" (JSON_stringify written ++ JS.nl)) (fun _ =>
  bind (sh "deno bundle mod.ts > npm/mod.js") (fun _ =>
  bind (sh "cp README.md npm/README.md") (fun _ =>
  sh "deno fmt"))))))))).

End Script.

(** The four steps of a complete build that writes [data]. *)
Definition allSteps (data : string) : list step :=
  [ wrote "npm/package.json" data;
    ran "deno bundle mod.ts > npm/mod.js";
    ran "cp README.md npm/README.md";
    ran "deno fmt" ].

End Build.

(** ** More small hosts for concrete runs *)

Module Demo2.

(** A host whose [spawnSync] returns an object with [error] set, with
    status 0 and a response that would parse. *)
Definition failing : Host :=
  {| World := list path;
     existsSync := fun w p => existsb (Demo.samePath p) w;
     spawnSync := fun w _ _ =>
       (w, inr (mkSpawnSyncReturns (Some (HostError "spawn npx ENOENT"))
                  (Some 0%Z) "[ok]"));
     JSON_parse := fun s => if String.eqb s "[ok]" then Some (JArr [Demo.batch]) else None;
     JSON_stringify := fun _ => "[ { id: 1 } ]";
     ToNumber := fun _ => inr nan |}.

(** A host whose child prints a response chosen by the statement: an
    object for [SELECT 1;], an array with [null] in the middle for
    [SELECT 2;], an array with a batch that lacks [results] otherwise. *)
Definition shapes : Host :=
  {| World := list path;
     existsSync := fun w p => existsb (Demo.samePath p) w;
     spawnSync := fun w _ args =>
       (w, inr (mkSpawnSyncReturns None (Some 0%Z) (List.last args EmptyString)));
     JSON_parse := fun s =>
       if String.eqb s "SELECT 1;" then Some (JObj [("error", JStr "no such table")])
       else if String.eqb s "SELECT 2;" then Some (JArr [Demo.batch; JNull; Demo.batch])
       else Some (JArr [JObj [("success", JBool true)]; JStr "x"]);
     JSON_stringify := fun _ => "[ { id: 1 } ]";
     ToNumber := fun _ => inr nan |}.

(** Two files, as name and content; commands succeed and change
    nothing. *)
Definition shell : Build.Shell :=
  {| Build.Files := list (string * string);
     Build.readFileSync := fun fs file =>
       match List.find (fun f => String.eqb (fst f) file) fs with
       | Some f => inr (snd f)
       | None => inl (HostError "ENOENT")
       end;
     Build.writeFileSync := fun fs file data => ((file, data) :: fs, None);
     Build.run := fun fs _ => (fs, None) |}.

(** The demo parser for the build: [deno] is a configuration with
    version 1, [npm] a package with name and version 0. *)
Definition buildHost : Host :=
  {| World := unit;
     existsSync := fun _ _ => false;
     spawnSync := fun w _ _ => (w, inl (HostError "unused"));
     JSON_parse := fun s =>
       if String.eqb s "deno" then
         Some (JObj [("name", JStr "d1-repl"); ("version", JNum 1%float)])
       else if String.eqb s "npm" then
         Some (JObj [("name", JStr "d1-repl"); ("version", JNum 0%float);
                     ("bin", JStr "mod.js")])
       else None;
     JSON_stringify := fun _ => "{}";
     ToNumber := fun _ => inr nan |}.

End Demo2.

(** ** [parseArgs] of [node:util], as called at lines 10-26 *)

(** The argument parser of the runtime at the configuration of the
    source: the options [local], [remote] and [help], each of type
    [boolean], with the short names [l], [r] and [h]; [allowPositionals]
    is set and [strict] keeps its default, [true]. The arguments are
    those after the script name. Since no option is of type [string], the
    parser's branches for such options are never taken and are left out;
    the positions the parser records in its tokens are not returned and
    are left out as well. *)
Module Util.

(** Lines 11-24: the long name of each option with its [short]. *)
Definition options : list (string * ascii) :=
  [("local", "l"%char); ("remote", "r"%char); ("help", "h"%char)].

Inductive token : Type :=
| option_ (name rawName : string) (value : option string)
| positional (value : string)
| option_terminator.

(** [arg.charAt(i) === c]. *)
Definition charIs (arg : string) (i : nat) (c : ascii) : bool :=
  match String.get i arg with
  | Some c' => Ascii.eqb c' c
  | None => false
  end.

(** [arg.includes(c, from)]. *)
Definition includes (arg : string) (c : string) (from : nat) : bool :=
  match String.index from c arg with
  | Some _ => true
  | None => false
  end.

(** [arg.slice(from)] and [arg.slice(from, to)]. *)
Definition sliceFrom (arg : string) (from : nat) : string :=
  String.substring from (String.length arg - from) arg.

Definition slice (arg : string) (from to : nat) : string :=
  String.substring from (to - from) arg.

Definition hasOwn (name : string) : bool :=
  existsb (fun o => String.eqb (fst o) name) options.

Definition findLongOptionForShort (shortOption : ascii) : string :=
  match List.find (fun o => Ascii.eqb (snd o) shortOption) options with
  | Some o => fst o
  | None => String shortOption EmptyString
  end.

(** [-f]. *)
Definition isLoneShortOption (arg : string) : bool :=
  (String.length arg =? 2)%nat && charIs arg 0 "-" && negb (charIs arg 1 "-").

(** [-fXzy]: more than two characters after one dash, the first of them
    no option of type [string]. *)
Definition isShortOptionGroup (arg : string) : bool :=
  negb (String.length arg <=? 2)%nat && charIs arg 0 "-" && negb (charIs arg 1 "-").

(** [--foo]. *)
Definition isLoneLongOption (arg : string) : bool :=
  (2 <? String.length arg)%nat && JS.startsWith arg "--" && negb (includes arg "=" 3).

(** [--foo=bar]. *)
Definition isLongOptionAndValue (arg : string) : bool :=
  (2 <? String.length arg)%nat && JS.startsWith arg "--" && includes arg "=" 3.

(** [-fXzy] becomes [-f], [-X], [-z], [-y]. *)
Definition expand (arg : string) : list string :=
  List.map (fun shortOption => String "-" (String shortOption EmptyString))
           (list_ascii_of_string (sliceFrom arg 1)).

(** The rounds of the loop of [argsToTokens] that an argument can take: a
    group of [n] characters is replaced by [n - 1] arguments of two
    characters, every other argument is consumed in one round. *)
Definition rounds (arg : string) : nat :=
  if (String.length arg <=? 2)%nat then 1 else String.length arg.

Definition steps (args : list string) : nat :=
  List.fold_right (fun arg n => rounds arg + n) 0 args.

(** The [while] loop of [argsToTokens], for at most [fuel] rounds. *)
Fixpoint loop (fuel : nat) (remainingArgs : list string) : list token :=
  match fuel, remainingArgs with
  | 0, _ => []
  | _, [] => []
  | S fuel, arg :: remainingArgs =>
      if String.eqb arg "--" then
        option_terminator :: List.map positional remainingArgs
      else if isLoneShortOption arg then
        let shortOption := match String.get 1 arg with Some c => c | None => "-"%char end in
        option_ (findLongOptionForShort shortOption) arg None :: loop fuel remainingArgs
      else if isShortOptionGroup arg then
        loop fuel (expand arg ++ remainingArgs)%list
      else if isLoneLongOption arg then
        option_ (sliceFrom arg 2) arg None :: loop fuel remainingArgs
      else if isLongOptionAndValue arg then
        let equalIndex := match String.index 0 "=" arg with Some i => i | None => 0 end in
        let longOption := slice arg 2 equalIndex in
        option_ longOption ("--" ++ longOption) (Some (sliceFrom arg (equalIndex + 1)))
          :: loop fuel remainingArgs
      else
        positional arg :: loop fuel remainingArgs
  end.

(** [argsToTokens]: the loop, with the rounds it can need. *)
Definition argsToTokens (args : list string) : list token :=
  loop (steps args) args.

(** [checkOptionUsage] in strict mode. The errors are [TypeError]s, named
    here by their [code]. *)
Definition checkOptionUsage (name : string) (value : option string) : option exn :=
  if negb (hasOwn name) then Some (TypeError "ERR_PARSE_ARGS_UNKNOWN_OPTION")
  else
    match value with
    | Some _ => Some (TypeError "ERR_PARSE_ARGS_INVALID_OPTION_VALUE")
    | None => None
    end.

(** [storeOption] for an option that passed the check: [values[name] =
    true]. *)
Definition storeOption (longOption : string) (result : ParsedArgs) : ParsedArgs :=
  if String.eqb longOption "local" then
    mkParsedArgs true (remote result) (help result) (positionals result)
  else if String.eqb longOption "remote" then
    mkParsedArgs (local result) true (help result) (positionals result)
  else if String.eqb longOption "help" then
    mkParsedArgs (local result) (remote result) true (positionals result)
  else result.

(** The second phase of [parseArgs]: the tokens are taken in order. *)
Fixpoint processTokens (tokens : list token) (result : ParsedArgs)
  : exn + ParsedArgs :=
  match tokens with
  | [] => inr result
  | option_ name rawName value :: rest =>
      match checkOptionUsage name value with
      | Some e => inl e
      | None => processTokens rest (storeOption name result)
      end
  | positional value :: rest =>
      processTokens rest
        (mkParsedArgs (local result) (remote result) (help result)
           (positionals result ++ [value])%list)
  | option_terminator :: rest => processTokens rest result
  end.

Definition parseArgs (args : list string) : exn + ParsedArgs :=
  processTokens (argsToTokens args) (mkParsedArgs false false false []).

End Util.

(** ** The whole run: arguments, lines and signals *)

(** What the process receives while the loop runs: a line of input, or
    the signal [SIGINT]. *)
Inductive input : Type :=
| line (text : string)
| SIGINT.

Section Run.

Context {host : Host}.
Variable env : Env.
Variable session : Session.

(** The session on a finite sequence of inputs: lines go to the [line]
    handler, a signal to the [SIGINT] handler of lines 152-155, until a
    handler ends the process; the end of the input closes the interface,
    which runs the [close] handler. *)
Fixpoint runInputs (inputs : list input) (w : World) : list event * World :=
  match inputs with
  | [] => (exitClosed, w)
  | line text :: rest =>
      match onLine env session text w with
      | (t, w', Prompting) =>
          match runInputs rest w' with
          | (t', w'') => ((t ++ t')%list, w'')
          end
      | (t, w', Terminated _) => (t, w')
      end
  | SIGINT :: rest =>
      match runInputs rest w with
      | (t', w'') => ((onSigint ++ t')%list, w'')
      end
  end.

End Run.

(** The program from the arguments after the script name: [parseArgs] at
    lines 10-26, whose error no handler catches, then the top-level code
    and the REPL. *)
Definition program {host : Host} (env : Env) (argv : list string)
    (inputs : list input) (w : World) : exn + (list event * World) :=
  match Util.parseArgs argv with
  | inl e => inl e
  | inr a =>
      match startup a with
      | (t, None) => inr (t, w)
      | (t, Some session) =>
          match runInputs env session inputs w with
          | (t', w') => inr ((t ++ start session ++ t')%list, w')
          end
      end
  end.

(** The exit code of a run: an uncaught exception ends the process with
    code 1, [process.exit(code)] with [code]. *)
Definition exitCode {host : Host} (r : exn + (list event * World)) : option Z :=
  match r with
  | inl _ => Some 1%Z
  | inr (t, _) => List.hd_error (exits t)
  end.

(** An option token with the name [name] is among the tokens. *)
Definition hasOption (name : string) (tokens : list Util.token) : bool :=
  existsb (fun t => match t with
                    | Util.option_ n _ _ => String.eqb n name
                    | _ => false
                    end) tokens.

(** The values of the positional tokens, in order. *)
Definition positionalsOf (tokens : list Util.token) : list string :=
  List.flat_map (fun t => match t with
                          | Util.positional v => [v]
                          | _ => []
                          end) tokens.

(** Every option token names one of the three options and has no
    value. *)
Definition knownOptions (tokens : list Util.token) : bool :=
  forallb (fun t => match t with
                    | Util.option_ n _ None => Util.hasOwn n
                    | Util.option_ _ _ (Some _) => false
                    | _ => true
                    end) tokens.

(** The option [name] is given in an argument vector, by its long or its
    short name, alone or in a group, before any [--]. *)
Definition given (name : string) (argv : list string) : bool :=
  hasOption name (Util.argsToTokens argv).

(** The argument vector has only options the parser knows, none with a
    value. *)
Definition accepted (argv : list string) : bool :=
  knownOptions (Util.argsToTokens argv).

(** The inputs before the first [.exit] or [.quit]. *)
Fixpoint inputsBeforeExit (inputs : list input) : list input :=
  match inputs with
  | [] => []
  | line text :: rest =>
      if isExitLine text then [] else line text :: inputsBeforeExit rest
  | SIGINT :: rest => SIGINT :: inputsBeforeExit rest
  end.

(** The event is the line of the first branch of [displayResults]. *)
Definition printsNoResults (e : event) : bool :=
  match e with
  | console_log [Text s] => String.eqb s "No results"
  | _ => false
  end.

(* ================================================================== *)
(** * Properties *)
(* ================================================================== *)

(** ** Start-up arguments *)

(** When the top-level code exits, nothing of the REPL is run. *)
Lemma main_exited :
  forall (host : Host) (env : Env) (a : ParsedArgs) (lines : list string)
         (w : World) (t : list event),
    startup a = (t, None) -> main env a lines w = (t, w).
Proof. intros host env a lines w t H. unfold main. rewrite H. reflexivity. Qed.

(** ** The argument parser *)

Module UtilFacts.
Import Util.

Lemma steps_app :
  forall a b, steps (a ++ b) = steps a + steps b.
Proof.
  induction a as [|x a IH]; intros b; simpl; [reflexivity|].
  rewrite IH. lia.
Qed.

Lemma substring_all :
  forall s, String.substring 0 (String.length s) s = s.
Proof. induction s as [|c s IH]; simpl; [reflexivity|]. rewrite IH. reflexivity. Qed.

Lemma steps_pieces :
  forall cs,
    steps (List.map (fun c => String "-" (String c EmptyString)) cs) = List.length cs.
Proof. induction cs as [|c cs IH]; simpl; [reflexivity|]. rewrite IH. reflexivity. Qed.

Lemma length_list_ascii :
  forall s, List.length (list_ascii_of_string s) = String.length s.
Proof. induction s as [|c s IH]; simpl; [reflexivity|]. rewrite IH. reflexivity. Qed.

(** The pieces of a group take one round less than the group. *)
Lemma steps_expand :
  forall arg,
    isShortOptionGroup arg = true -> S (steps (expand arg)) = rounds arg.
Proof.
  intros arg H. unfold isShortOptionGroup in H.
  apply andb_true_iff in H as [H _]. apply andb_true_iff in H as [H _].
  apply negb_true_iff in H. unfold rounds. rewrite H.
  unfold expand. rewrite steps_pieces, length_list_ascii.
  destruct arg as [|c r]; [discriminate H|].
  unfold sliceFrom. simpl String.length. simpl.
  rewrite Nat.sub_0_r, substring_all. reflexivity.
Qed.

Lemma rounds_positive : forall arg, 1 <= rounds arg.
Proof.
  intros arg. unfold rounds. destruct (String.length arg <=? 2)%nat eqn:E; [lia|].
  apply Nat.leb_gt in E. lia.
Qed.

(** More fuel than [steps] changes nothing. *)
Lemma loop_fuel :
  forall n m args,
    steps args <= n -> steps args <= m -> loop n args = loop m args.
Proof.
  induction n as [|n IH]; intros m args Hn Hm.
  - destruct args as [|arg rest]; [destruct m; reflexivity|].
    simpl in Hn. pose proof (rounds_positive arg). lia.
  - destruct args as [|arg rest]; [destruct m; reflexivity|].
    destruct m as [|m]; [simpl in Hm; pose proof (rounds_positive arg); lia|].
    simpl in Hn, Hm. pose proof (rounds_positive arg) as Hr.
    assert (Hrest : loop n rest = loop m rest) by (apply IH; lia).
    simpl loop. rewrite Hrest.
    destruct (isShortOptionGroup arg) eqn:Eg; [|reflexivity].
    assert (Hg : loop n (expand arg ++ rest) = loop m (expand arg ++ rest)).
    { pose proof (steps_expand arg Eg). apply IH; rewrite steps_app; lia. }
    rewrite Hg. reflexivity.
Qed.

(** The equation of the loop: [argsToTokens] never runs out of rounds. *)
Lemma argsToTokens_cons :
  forall arg remainingArgs,
    argsToTokens (arg :: remainingArgs)
    = if String.eqb arg "--" then
        option_terminator :: List.map positional remainingArgs
      else if isLoneShortOption arg then
        let shortOption := match String.get 1 arg with Some c => c | None => "-"%char end in
        option_ (findLongOptionForShort shortOption) arg None :: argsToTokens remainingArgs
      else if isShortOptionGroup arg then
        argsToTokens (expand arg ++ remainingArgs)
      else if isLoneLongOption arg then
        option_ (sliceFrom arg 2) arg None :: argsToTokens remainingArgs
      else if isLongOptionAndValue arg then
        let equalIndex := match String.index 0 "=" arg with Some i => i | None => 0 end in
        let longOption := slice arg 2 equalIndex in
        option_ longOption ("--" ++ longOption) (Some (sliceFrom arg (equalIndex + 1)))
          :: argsToTokens remainingArgs
      else
        positional arg :: argsToTokens remainingArgs.
Proof.
  intros arg rest. unfold argsToTokens at 1.
  pose proof (rounds_positive arg) as Hr. simpl steps.
  destruct (rounds arg + steps rest) as [|n] eqn:En; [lia|].
  assert (Hrest : loop n rest = argsToTokens rest).
  { unfold argsToTokens. apply loop_fuel; lia. }
  simpl loop. rewrite Hrest.
  destruct (isShortOptionGroup arg) eqn:Eg; [|reflexivity].
  assert (Hg : loop n (expand arg ++ rest) = argsToTokens (expand arg ++ rest)).
  { unfold argsToTokens. pose proof (steps_expand arg Eg).
    apply loop_fuel; rewrite steps_app; lia. }
  rewrite Hg. reflexivity.
Qed.

Lemma argsToTokens_nil : argsToTokens [] = [].
Proof. reflexivity. Qed.

Lemma storeOption_fields :
  forall n r,
    storeOption n r
    = mkParsedArgs (local r || String.eqb n "local") (remote r || String.eqb n "remote")
        (help r || String.eqb n "help") (positionals r).
Proof.
  intros n [l r h p]. unfold storeOption. simpl.
  destruct (String.eqb_spec n "local") as [->|_]; simpl.
  { rewrite !orb_true_r, !orb_false_r. reflexivity. }
  destruct (String.eqb_spec n "remote") as [->|_]; simpl.
  { rewrite !orb_true_r, !orb_false_r. reflexivity. }
  destruct (String.eqb_spec n "help") as [->|_]; simpl;
    rewrite ?orb_true_r, ?orb_false_r; reflexivity.
Qed.

(** The second phase: it succeeds exactly on tokens whose options are
    known and have no value, and then collects the options given and the
    positional arguments in order. *)
Lemma processTokens_known :
  forall tokens r,
    knownOptions tokens = true ->
    processTokens tokens r
    = inr (mkParsedArgs (local r || hasOption "local" tokens)
             (remote r || hasOption "remote" tokens)
             (help r || hasOption "help" tokens)
             (positionals r ++ positionalsOf tokens)).
Proof.
  induction tokens as [|t tokens IH]; intros r H.
  - simpl. rewrite !orb_false_r, app_nil_r. destruct r; reflexivity.
  - simpl in H. apply andb_true_iff in H as [Ht H].
    destruct t as [n raw [v|]|v|]; simpl.
    + discriminate Ht.
    + unfold checkOptionUsage. rewrite Ht. simpl.
      rewrite (IH _ H), storeOption_fields. simpl.
      rewrite !orb_assoc. reflexivity.
    + rewrite (IH _ H). simpl. rewrite <- app_assoc. reflexivity.
    + rewrite (IH _ H). reflexivity.
Qed.

Lemma processTokens_unknown :
  forall tokens r,
    knownOptions tokens = false -> exists e, processTokens tokens r = inl e.
Proof.
  induction tokens as [|t tokens IH]; intros r H; [discriminate H|].
  simpl in H. destruct t as [n raw [v|]|v|]; simpl.
  - unfold checkOptionUsage. destruct (hasOwn n); simpl; eauto.
  - unfold checkOptionUsage. destruct (hasOwn n) eqn:E; simpl; eauto.
  - apply IH. exact H.
  - apply IH. exact H.
Qed.

End UtilFacts.

(** The parser accepts a vector exactly when its options are known and
    have no value; the result then says which options were given and
    lists the positional arguments. *)
Lemma parseArgs_accepted :
  forall argv,
    accepted argv = true ->
    Util.parseArgs argv
    = inr (mkParsedArgs (given "local" argv) (given "remote" argv) (given "help" argv)
             (positionalsOf (Util.argsToTokens argv))).
Proof.
  intros argv H. unfold Util.parseArgs.
  rewrite (UtilFacts.processTokens_known _ _ H). reflexivity.
Qed.

Lemma parseArgs_refused :
  forall argv, accepted argv = false -> exists e, Util.parseArgs argv = inl e.
Proof. intros argv H. apply UtilFacts.processTokens_unknown. exact H. Qed.

Lemma parseArgs_returns :
  forall argv a,
    Util.parseArgs argv = inr a ->
    accepted argv = true
    /\ a = mkParsedArgs (given "local" argv) (given "remote" argv) (given "help" argv)
             (positionalsOf (Util.argsToTokens argv)).
Proof.
  intros argv a H. destruct (accepted argv) eqn:E.
  - rewrite (parseArgs_accepted argv E) in H. injection H as <-. split; reflexivity.
  - destruct (parseArgs_refused argv E) as [e He]. rewrite He in H. discriminate.
Qed.

Lemma program_refused :
  forall (host : Host) env argv inputs w e,
    Util.parseArgs argv = inl e -> program env argv inputs w = inl e.
Proof. intros. unfold program. rewrite H. reflexivity. Qed.

Lemma program_exited :
  forall (host : Host) env argv inputs w a t,
    Util.parseArgs argv = inr a -> startup a = (t, None) ->
    program env argv inputs w = inr (t, w).
Proof. intros host env argv inputs w a t H Hs. unfold program. rewrite H, Hs. reflexivity. Qed.

(** ** Help and the validation of the arguments *)

(** C10, amended. For an argument vector that the parser accepts,
    [--help] (or [-h]) comes before the validation of the arguments:
    the help option is set in the result exactly when it is given in the
    vector, and then the usage text is printed and the process exits
    with code 0, whatever the positional arguments and the two locality
    flags are, and that is all the program does; an exit with code 1 by
    the missing-name or the conflict check occurs only without it. *)
Theorem help_takes_precedence :
  forall (host : Host) (env : Env) (argv : list string) (a : ParsedArgs)
         (inputs : list input) (w : World),
    Util.parseArgs argv = inr a ->
    (help a = true <-> given "help" argv = true)
    /\ (help a = true ->
          program env argv inputs w
          = inr ([console_log [Text usage]; process_exit 0], w))
    /\ (forall t w',
          program env argv inputs w = inr (t, w') ->
          In (process_exit 1) t -> help a = false).
Proof.
  intros host env argv a inputs w Hp.
  assert (Hu : help a = true ->
               program env argv inputs w
               = inr ([console_log [Text usage]; process_exit 0], w)).
  { intros Hh. apply (program_exited host env argv inputs w a _ Hp).
    unfold startup. rewrite Hh. reflexivity. }
  split; [|split; [exact Hu|]].
  - destruct (parseArgs_returns argv a Hp) as [_ ->]. simpl. tauto.
  - intros t w' Hr Hin. destruct (help a) eqn:Hh; [|reflexivity].
    rewrite (Hu eq_refl) in Hr. injection Hr as <- <-.
    destruct Hin as [Hin | [Hin | []]]; discriminate.
Qed.

(** With [-h], no name and both locality flags the exit code is 0. *)
Lemma help_takes_precedence_witness :
  Util.parseArgs ["-h"; "--local"; "--remote"] = inr (mkParsedArgs true true true [])
  /\ program (host := Demo.host) Demo.env ["-h"; "--local"; "--remote"]
       [line ".tables"] []
     = inr ([console_log [Text usage]; process_exit 0], []).
Proof.
  split; [reflexivity|].
  apply (proj1 (proj2 (help_takes_precedence Demo.host Demo.env
                         ["-h"; "--local"; "--remote"]
                         (mkParsedArgs true true true []) [line ".tables"] []
                         eq_refl))).
  reflexivity.
Defined.

(** C10, as stated, fails: in the argument vector [--help --bogus] the
    help option is given, and the parser throws on the unknown option
    before line 29 is reached; the usage text is not printed and the
    process ends with code 1. *)
Lemma help_with_unknown_option_exits_1 :
  In "--help" ["--help"; "--bogus"]
  /\ given "help" ["--help"; "--bogus"] = true
  /\ program (host := Demo.host) Demo.env ["--help"; "--bogus"] [] []
     = inl (TypeError "ERR_PARSE_ARGS_UNKNOWN_OPTION")
  /\ exitCode (program (host := Demo.host) Demo.env ["--help"; "--bogus"] [] [])
     = Some 1%Z.
Proof. split; [left; reflexivity|]. repeat split. Qed.

(** C4, as stated, fails: the argument vector [--help --local --remote]
    has no database name and both locality flags, and the process exits
    with code 0 after the usage text, with neither diagnostic; the
    vector [--bogus] has no database name and no help option, and the
    process ends in the parser, without the missing-name message. *)
Lemma missing_or_conflict_with_help_exits_0 :
  nth_error (positionals (mkParsedArgs true true true [])) 0 = None
  /\ (local (mkParsedArgs true true true [])
      && remote (mkParsedArgs true true true [])) = true
  /\ exits (fst (startup (mkParsedArgs true true true []))) = [0%Z]
  /\ fst (startup (mkParsedArgs true true true []))
     = [console_log [Text usage]; process_exit 0]
  /\ Util.parseArgs ["--help"; "--local"; "--remote"]
     = inr (mkParsedArgs true true true [])
  /\ program (host := Demo.host) Demo.env ["--help"; "--local"; "--remote"] [] []
     = inr ([console_log [Text usage]; process_exit 0], [])
  /\ positionalsOf (Util.argsToTokens ["--bogus"]) = []
  /\ given "help" ["--bogus"] = false
  /\ program (host := Demo.host) Demo.env ["--bogus"] [] []
     = inl (TypeError "ERR_PARSE_ARGS_UNKNOWN_OPTION").
Proof. repeat split. Qed.

(** C4, amended. For an argument vector that the parser accepts and that
    has no [--help]: when the database name (the first positional
    argument) is missing or is the empty string, the process prints the
    missing-name message and exits with code 1; when the name is there,
    not empty, and both [--local] and [--remote] are given, it prints the
    conflict message and exits with code 1. In both cases that is all the
    program does: no REPL is started. *)
Theorem invalid_arguments_exit_1 :
  forall (host : Host) (env : Env) (argv : list string) (a : ParsedArgs)
         (inputs : list input) (w : World),
    Util.parseArgs argv = inr a ->
    help a = false ->
    (nth_error (positionals a) 0 = None \/ nth_error (positionals a) 0 = Some "" ->
       program env argv inputs w
       = inr ([console_error [Text "Database name is required"]; process_exit 1], w))
    /\ (forall name,
          nth_error (positionals a) 0 = Some name -> name <> "" ->
          local a = true -> remote a = true ->
          program env argv inputs w
          = inr ([console_error [Text "Cannot use both local and remote flags"];
                  process_exit 1], w)).
Proof.
  intros host env argv a inputs w Hp Hh; split.
  - intros Hn. apply (program_exited host env argv inputs w a _ Hp).
    unfold startup. rewrite Hh. destruct Hn as [-> | ->]; reflexivity.
  - intros name Hn Hne Hl Hr.
    apply (program_exited host env argv inputs w a _ Hp).
    unfold startup. rewrite Hh, Hn, Hl, Hr. simpl.
    destruct name; [contradiction|reflexivity].
Qed.

(** C4 on a vector without a name, on an empty name with both flags, and
    on a name with the group [-lr]. *)
Lemma invalid_arguments_exit_1_witness :
  program (host := Demo.host) Demo.env ["--local"] [line ".tables"] []
  = inr ([console_error [Text "Database name is required"]; process_exit 1], [])
  /\ program (host := Demo.host) Demo.env [""; "--local"; "--remote"] [line ".tables"] []
     = inr ([console_error [Text "Database name is required"]; process_exit 1], [])
  /\ program (host := Demo.host) Demo.env ["mydb"; "-lr"] [line ".tables"] []
     = inr ([console_error [Text "Cannot use both local and remote flags"];
             process_exit 1], []).
Proof.
  split; [|split].
  - apply (proj1 (invalid_arguments_exit_1 Demo.host Demo.env ["--local"]
                    (mkParsedArgs true false false []) [line ".tables"] []
                    eq_refl eq_refl)).
    left; reflexivity.
  - apply (proj1 (invalid_arguments_exit_1 Demo.host Demo.env
                    [""; "--local"; "--remote"]
                    (mkParsedArgs true true false [""]) [line ".tables"] []
                    eq_refl eq_refl)).
    right; reflexivity.
  - apply (proj2 (invalid_arguments_exit_1 Demo.host Demo.env ["mydb"; "-lr"]
                    (mkParsedArgs true true false ["mydb"]) [line ".tables"] []
                    eq_refl eq_refl) "mydb"); try reflexivity.
    discriminate.
Defined.

(** ** Facts about the string primitives *)

Module JSFacts.
Import JS.

Ltac each_char c := destruct c as [[] [] [] [] [] [] [] []].

Lemma lowerChar_asciiUpper : forall c, lowerChar (asciiUpper c) = lowerChar c.
Proof. intros c; each_char c; reflexivity. Qed.

Lemma isWhiteSpace_asciiUpper : forall c, isWhiteSpace (asciiUpper c) = isWhiteSpace c.
Proof. intros c; each_char c; reflexivity. Qed.

Lemma isWhiteSpace_lowerChar : forall c, isWhiteSpace (lowerChar c) = isWhiteSpace c.
Proof. intros c; each_char c; reflexivity. Qed.

Lemma space_isWhiteSpace : forall c, Ascii.eqb c " " = true -> isWhiteSpace c = true.
Proof. intros c H; apply Ascii.eqb_eq in H; subst; reflexivity. Qed.

Lemma equalsIgnoreCase_toLowerCase :
  forall a b, equalsIgnoreCase a b = true -> toLowerCase a = toLowerCase b.
Proof.
  induction a as [|c a IH]; intros [|d b] H; simpl in H; try discriminate.
  - reflexivity.
  - apply andb_true_iff in H as [Hc Hr]. apply Ascii.eqb_eq in Hc.
    simpl. rewrite (IH _ Hr).
    rewrite <- (lowerChar_asciiUpper c), Hc, lowerChar_asciiUpper. reflexivity.
Qed.

Lemma equalsIgnoreCase_noWhiteSpace :
  forall a b, equalsIgnoreCase a b = true -> noWhiteSpace a = noWhiteSpace b.
Proof.
  induction a as [|c a IH]; intros [|d b] H; simpl in H; try discriminate.
  - reflexivity.
  - apply andb_true_iff in H as [Hc Hr]. apply Ascii.eqb_eq in Hc.
    simpl. rewrite (IH _ Hr).
    rewrite <- (isWhiteSpace_asciiUpper c), Hc, isWhiteSpace_asciiUpper. reflexivity.
Qed.

Lemma toLowerCase_app :
  forall a b, toLowerCase (a ++ b) = toLowerCase a ++ toLowerCase b.
Proof. induction a as [|c a IH]; intros b; simpl; [|rewrite IH]; reflexivity. Qed.

Lemma app_assoc_string : forall a b c : string, (a ++ b) ++ c = a ++ (b ++ c).
Proof. induction a as [|x a IH]; intros; simpl; [|rewrite IH]; reflexivity. Qed.

Lemma app_empty_r : forall a : string, a ++ "" = a.
Proof. induction a as [|x a IH]; simpl; [|rewrite IH]; reflexivity. Qed.

(** *** Trimming *)

Lemma trimStart_allWhiteSpace :
  forall s, allWhiteSpace s = true -> trimStart s = "".
Proof.
  induction s as [|c s IH]; simpl; intros H; [reflexivity|].
  apply andb_true_iff in H as [Hc Hs]. rewrite Hc. auto.
Qed.

Lemma trimEnd_allWhiteSpace :
  forall s, allWhiteSpace s = true -> trimEnd s = "".
Proof.
  induction s as [|c s IH]; simpl; intros H; [reflexivity|].
  apply andb_true_iff in H as [Hc Hs]. rewrite (IH Hs), Hc. reflexivity.
Qed.

Lemma trimStart_lead :
  forall lead s, allWhiteSpace lead = true -> trimStart (lead ++ s) = trimStart s.
Proof.
  induction lead as [|c l IH]; simpl; intros s H; [reflexivity|].
  apply andb_true_iff in H as [Hc Hl]. rewrite Hc. auto.
Qed.

Lemma trimEnd_trail :
  forall s trail, allWhiteSpace trail = true -> trimEnd (s ++ trail) = trimEnd s.
Proof.
  induction s as [|c s IH]; simpl; intros trail H.
  - apply trimEnd_allWhiteSpace; assumption.
  - rewrite IH by assumption. reflexivity.
Qed.

Lemma trimStart_trail :
  forall s trail, allWhiteSpace trail = true ->
    trimStart (s ++ trail) = if allWhiteSpace s then "" else trimStart s ++ trail.
Proof.
  induction s as [|c s IH]; simpl; intros trail H.
  - apply trimStart_allWhiteSpace; assumption.
  - destruct (isWhiteSpace c); simpl; [apply IH; assumption|reflexivity].
Qed.

Lemma trim_allWhiteSpace : forall s, allWhiteSpace s = true -> trim s = "".
Proof. intros s H. unfold trim. rewrite (trimStart_allWhiteSpace _ H). reflexivity. Qed.

Lemma trim_padded :
  forall lead s trail,
    allWhiteSpace lead = true -> allWhiteSpace trail = true ->
    trim (lead ++ s ++ trail) = trim s.
Proof.
  intros lead s trail Hl Ht. unfold trim.
  rewrite trimStart_lead by assumption. rewrite trimStart_trail by assumption.
  destruct (allWhiteSpace s) eqn:Hs.
  - rewrite (trimStart_allWhiteSpace _ Hs). reflexivity.
  - apply trimEnd_trail; assumption.
Qed.

Lemma trimEnd_noWhiteSpace_app :
  forall x y, noWhiteSpace x = true -> trimEnd (x ++ y) = x ++ trimEnd y.
Proof.
  induction x as [|c x IH]; simpl; intros y H; [reflexivity|].
  apply andb_true_iff in H as [Hc Hx]. rewrite IH by assumption.
  apply negb_true_iff in Hc. rewrite Hc.
  destruct (x ++ trimEnd y); reflexivity.
Qed.

Lemma trimStart_noWhiteSpace_app :
  forall c x y, isWhiteSpace c = false -> trimStart (String c x ++ y) = String c x ++ y.
Proof. intros c x y H. simpl. rewrite H. reflexivity. Qed.

Lemma trim_noWhiteSpace : forall x, noWhiteSpace x = true -> trim x = x.
Proof.
  intros x H. unfold trim. destruct x as [|c x]; [reflexivity|].
  assert (Hc : isWhiteSpace c = false).
  { simpl in H. apply andb_true_iff in H as [Hc _]. apply negb_true_iff in Hc. exact Hc. }
  simpl trimStart. rewrite Hc.
  rewrite <- (app_empty_r (String c x)) at 1.
  rewrite trimEnd_noWhiteSpace_app by assumption.
  change (trimEnd "") with "". apply app_empty_r.
Qed.

Lemma trim_noWhiteSpace_app :
  forall c x y, noWhiteSpace (String c x) = true ->
    trim (String c x ++ y) = String c x ++ trimEnd y.
Proof.
  intros c x y H. unfold trim.
  assert (Hc : isWhiteSpace c = false).
  { simpl in H. apply andb_true_iff in H as [Hc _]. apply negb_true_iff in Hc. exact Hc. }
  rewrite trimStart_noWhiteSpace_app by assumption.
  apply trimEnd_noWhiteSpace_app; assumption.
Qed.

(** *** Splitting at spaces *)

Lemma split_not_nil : forall sep s, split sep s <> [].
Proof.
  intros sep s; destruct s as [|c s]; simpl; [discriminate|].
  destruct (Ascii.eqb c sep); [discriminate|].
  destruct (split sep s); discriminate.
Qed.

Lemma noWhiteSpace_noSpace : forall x, noWhiteSpace x = true -> noSpace x = true.
Proof.
  induction x as [|c x IH]; simpl; intros H; [reflexivity|].
  apply andb_true_iff in H as [Hc Hx]. rewrite (IH Hx), andb_true_r.
  destruct (Ascii.eqb c " ") eqn:E; [|reflexivity].
  apply space_isWhiteSpace in E. rewrite E in Hc. discriminate.
Qed.

Lemma split_noSpace_app :
  forall x y, noSpace x = true ->
    split " " (x ++ y)
    = (x ++ List.hd "" (split " " y)) :: List.tl (split " " y).
Proof.
  induction x as [|c x IH]; simpl; intros y H.
  - pose proof (split_not_nil " " y) as Hn.
    destruct (split " " y); [contradiction|reflexivity].
  - apply andb_true_iff in H as [Hc Hx]. apply negb_true_iff in Hc.
    rewrite Hc. rewrite IH by assumption. reflexivity.
Qed.

Lemma split_noSpace : forall x, noSpace x = true -> split " " x = [x].
Proof.
  intros x H. rewrite <- (app_empty_r x) at 1.
  rewrite split_noSpace_app by assumption. simpl.
  rewrite app_empty_r. reflexivity.
Qed.

Lemma split_space : forall y, split " " (" " ++ y) = "" :: split " " y.
Proof. reflexivity. Qed.

(** The second piece of [word arg rest], where [rest] is empty or starts
    with a space. *)
Lemma split_second :
  forall word arg rest,
    noSpace word = true -> noSpace arg = true ->
    (rest = "" \/ exists r, rest = " " ++ r) ->
    nth_error (split " " (word ++ " " ++ arg ++ rest)) 1 = Some arg.
Proof.
  intros word arg rest Hw Ha Hr.
  rewrite split_noSpace_app by assumption. rewrite split_space.
  rewrite split_noSpace_app by assumption. simpl.
  destruct Hr as [-> | [r ->]]; simpl; rewrite app_empty_r; reflexivity.
Qed.

End JSFacts.

(** ** The executor *)

Section Executor.

Context {host : Host}.
Variable env : Env.
Variable session : Session.

Lemma bind_emit :
  forall (e : event) (k : Try unit), (emit e ;;; k) = (e :: fst k, snd k).
Proof. intros e [t r]; reflexivity. Qed.

Lemma caught_cons :
  forall e t r, caught (e :: t, r) = e :: caught (t, r).
Proof. intros e t [x|u]; reflexivity. Qed.

Lemma caught_app :
  forall t1 t2 r, caught ((t1 ++ t2)%list, r) = (t1 ++ caught (t2, r))%list.
Proof. intros t1 t2 [x|u]; simpl; [rewrite app_assoc|]; reflexivity. Qed.

Lemma caught_bind_returns :
  forall (m k : Try unit) t u,
    m = (t, inr u) -> caught (m ;;; k) = (t ++ caught k)%list.
Proof.
  intros m [t2 r] t u ->. unfold bind. apply caught_app.
Qed.

(** The launcher is one of six word lists, none empty. *)
Lemma launcher_cases :
  forall w,
    In (launcher env w)
       [ ["wrangler"]; ["deno"; "run"; "-A"; "npm:wrangler"]; ["pnpm"; "wrangler"];
         ["yarn"; "wrangler"]; ["bun"; "wrangler"]; ["npx"; "wrangler"] ].
Proof.
  intros w. unfold launcher.
  destruct (JS.truthyString (npm_config_user_agent env)); [simpl; auto|].
  repeat match goal with
         | |- context [if ?b then _ else _] => destruct b
         end; simpl; auto 10.
Qed.

Lemma launcher_cons :
  forall w, exists c r, launcher env w = c :: r.
Proof.
  intros w. pose proof (launcher_cases w) as H. simpl in H.
  repeat destruct H as [H | H]; try contradiction; rewrite <- H; eauto.
Qed.

(** *** Console output only *)

Lemma debugLine_console :
  forall c a, forallb isConsole (fst (debugLine env c a)) = true.
Proof. intros c a. unfold debugLine. destruct (JS.truthyString _); reflexivity. Qed.

Lemma debugLine_returns :
  forall c a, snd (debugLine env c a) = inr tt.
Proof. intros c a. unfold debugLine. destruct (JS.truthyString _); reflexivity. Qed.

Lemma displayResults_console :
  forall r, forallb isConsole (fst (displayResults r)) = true.
Proof. intros r. unfold displayResults. destruct (lengthIsZero _); reflexivity. Qed.

Lemma renderItem_console :
  forall item, forallb isConsole (fst (renderItem item)) = true.
Proof.
  intros item. unfold renderItem, bind, lift, emit, ret.
  destruct (Json.get item "success") as [e|success]; [reflexivity|].
  destruct (Json.truthy success).
  - destruct (Json.get item "results") as [e|results]; [reflexivity|].
    destruct (hasResults results) as [e|nonEmpty]; [reflexivity|].
    assert (Hd : forall m : Try unit,
               m = match results, nonEmpty with
                   | Some r, true => displayResults r
                   | _, _ => ([console_log [Text "No results returned"]], inr tt)
                   end ->
               forallb isConsole (fst m) = true).
    { intros m ->. destruct results as [r|]; [destruct nonEmpty|];
        try reflexivity. apply displayResults_console. }
    specialize (Hd _ eq_refl).
    destruct (match results, nonEmpty with
              | Some r, true => displayResults r
              | _, _ => ([console_log [Text "No results returned"]], inr tt)
              end) as [t [e|u]]; simpl in Hd |- *; [assumption|].
    destruct (Json.get item "meta") as [e|meta]; simpl.
    + rewrite app_nil_r. assumption.
    + destruct (hasMeta meta); simpl; rewrite forallb_app, Hd; reflexivity.
  - destruct (Json.get item "meta") as [e|meta]; reflexivity.
Qed.

Lemma bind_console :
  forall (m k : Try unit),
    forallb isConsole (fst m) = true ->
    forallb isConsole (fst k) = true ->
    forallb isConsole (fst (m ;;; k)) = true.
Proof.
  intros [t1 [e|u]] [t2 r] H1 H2; simpl in *; [assumption|].
  rewrite forallb_app, H1, H2. reflexivity.
Qed.

Lemma forEach_console :
  forall items, forallb isConsole (fst (forEach items)) = true.
Proof.
  induction items as [|item rest IH]; [reflexivity|].
  simpl. apply bind_console; [apply renderItem_console|assumption].
Qed.

Lemma report_console :
  forall result, forallb isConsole (fst (report result)) = true.
Proof.
  intros result. unfold report.
  destruct (error result); [reflexivity|].
  destruct (statusIsNotZero _); [reflexivity|].
  destruct (JSON_parse _) as [parsed|]; [|reflexivity].
  unfold bind, lift. destruct (Json.iterate parsed) as [e|items]; [reflexivity|].
  pose proof (forEach_console items) as H.
  destruct (forEach items); assumption.
Qed.

Lemma caught_console :
  forall m : Try unit,
    forallb isConsole (fst m) = true -> forallb isConsole (caught m) = true.
Proof.
  intros [t [e|u]] H; simpl in *; [|assumption].
  rewrite forallb_app, H. reflexivity.
Qed.

Lemma console_spawned :
  forall t, forallb isConsole t = true -> spawned t = [].
Proof.
  induction t as [|e t IH]; simpl; intros H; [reflexivity|].
  apply andb_true_iff in H as [He Ht]. destruct e; try discriminate; auto.
Qed.

Lemma console_exits :
  forall t, forallb isConsole t = true -> exits t = [].
Proof.
  induction t as [|e t IH]; simpl; intros H; [reflexivity|].
  apply andb_true_iff in H as [He Ht]. destruct e; try discriminate; auto.
Qed.

Lemma spawned_app :
  forall t1 t2, spawned (t1 ++ t2) = (spawned t1 ++ spawned t2)%list.
Proof.
  induction t1 as [|e t1 IH]; intros t2; simpl; [reflexivity|].
  destruct e; simpl; rewrite ?IH; reflexivity.
Qed.

Lemma In_spawned :
  forall t c a, In (spawn c a) t -> In (c :: a) (spawned t).
Proof.
  induction t as [|e t IH]; simpl; intros c a H; [contradiction|].
  destruct H as [-> | H]; [left; reflexivity|].
  destruct e; simpl; auto.
Qed.

(** *** The shape of an execution *)

(** What follows the subprocess call: the report of what [spawnSync]
    returned or threw, under the [catch]. *)
Lemma executeSQL_shape :
  forall sql w command args w' r,
    (launcher env w ++ d1Args session sql)%list = command :: args ->
    spawnSync w command args = (w', r) ->
    executeSQL env session sql w
    = ((console_log [Text (JS.nl ++ "Executing: " ++ sql)]
          :: fst (debugLine env command args)
          ++ spawn command args :: caught (result <- lift r ;; report result))%list,
       w').
Proof.
  intros sql w command args w' r Hc Hs.
  unfold executeSQL, tryBlock. rewrite Hc, Hs. f_equal. f_equal.
  pose proof (debugLine_returns command args) as Hd.
  destruct (debugLine env command args) as [td rd]. simpl in Hd; subst rd.
  rewrite (caught_bind_returns _ _ _ _ eq_refl). simpl fst. f_equal.
  rewrite bind_emit. destruct (result <- lift r ;; report result) as [t x].
  apply caught_cons.
Qed.

Lemma exits_app :
  forall t1 t2, exits (t1 ++ t2) = (exits t1 ++ exits t2)%list.
Proof.
  induction t1 as [|e t1 IH]; intros t2; simpl; [reflexivity|].
  destruct e; simpl; rewrite ?IH; reflexivity.
Qed.

Lemma executeSQL_runs :
  forall sql w,
    exists command args,
      (launcher env w ++ d1Args session sql)%list = command :: args.
Proof.
  intros sql w. destruct (launcher_cons w) as (c & r & ->). simpl; eauto.
Qed.

Lemma executeSQL_spawned :
  forall sql w,
    spawned (fst (executeSQL env session sql w))
    = [(launcher env w ++ d1Args session sql)%list].
Proof.
  intros sql w. destruct (executeSQL_runs sql w) as (c & a & Hc).
  destruct (spawnSync w c a) as [w' r] eqn:Hs.
  rewrite (executeSQL_shape sql w c a w' r Hc Hs). simpl.
  rewrite spawned_app, (console_spawned _ (debugLine_console c a)). simpl.
  rewrite console_spawned; [rewrite Hc; reflexivity|].
  apply caught_console. unfold bind, lift. destruct r as [e|res]; [reflexivity|].
  pose proof (report_console res) as H. destruct (report res); assumption.
Qed.

(** *** The command line *)

(** C1. For every submitted SQL string the executor makes one subprocess
    call, and its command line is the launcher prefix followed by
    exactly [d1], [execute], the database name, then [--local] if the
    local flag was given or [--remote] if the remote flag was given (never
    both, possibly neither), then [--json], [--command] and the SQL text
    itself as the last argument. *)
Theorem command_line_after_launcher :
  forall a : ParsedArgs,
    startup a = ([], Some session) ->
    forall (sql : string) (w : World),
    exists name,
      nth_error (positionals a) 0 = Some name
      /\ (local a && remote a) = false
      /\ spawned (fst (executeSQL env session sql w))
         = [ (launcher env w
                ++ ["d1"; "execute"; name]
                ++ (if local a then ["--local"]
                    else if remote a then ["--remote"] else [])
                ++ ["--json"; "--command"; sql])%list ]
      /\ List.last (launcher env w ++ d1Args session sql)%list "" = sql.
Proof.
  intros a Hs sql w. unfold startup in Hs.
  destruct (help a); [discriminate|].
  destruct (nth_error (positionals a) 0) as [[|c name]|] eqn:Hn; try discriminate.
  destruct (local a && remote a) eqn:Hb; [discriminate|].
  injection Hs as Hsess.
  exists (String c name). repeat split.
  - rewrite executeSQL_spawned. unfold d1Args. rewrite <- Hsess.
    unfold buildFlags; simpl.
    destruct (local a), (remote a); try discriminate; reflexivity.
  - unfold d1Args.
    replace (launcher env w
               ++ ["d1"; "execute"; databaseName session]
               ++ flags session ++ ["--json"; "--command"; sql])%list
      with ((launcher env w
               ++ ["d1"; "execute"; databaseName session]
               ++ flags session ++ ["--json"; "--command"]) ++ [sql])%list
      by (rewrite <- !app_assoc; reflexivity).
    apply last_last.
Qed.

(** *** The launcher *)

(** The words the source pushes for a package manager name. *)
Lemma launcher_walk :
  forall w,
    JS.truthyString (npm_config_user_agent env) = false ->
    forall dir,
      cwd env = dir ->
      launcher env w = launcherByLockFile w dir.
Proof.
  intros w He dir Hd. unfold launcher, findPackageManager. rewrite He, Hd.
  clear Hd. induction dir as [|x parent IH]; [reflexivity|].
  unfold launcherByLockFile, holdsLockFile, launcherIn in *. simpl visited. simpl List.find.
  simpl findPackageManagerFrom. unfold probe. simpl existsb.
  destruct (existsSync w (Path.join (x :: parent) "pnpm-lock.yaml")) eqn:E1;
    [simpl; rewrite E1; reflexivity|].
  destruct (existsSync w (Path.join (x :: parent) "yarn.lock")) eqn:E2;
    [simpl; rewrite E1, E2; reflexivity|].
  destruct (existsSync w (Path.join (x :: parent) "bun.lock")) eqn:E3;
    [simpl; rewrite E1, E2, E3; reflexivity|].
  destruct (existsSync w (Path.join (x :: parent) "package-lock.json")) eqn:E4;
    [simpl; rewrite E1, E2, E3, E4; reflexivity|].
  destruct (existsSync w (Path.join (x :: parent) "deno.lock")) eqn:E5;
    [simpl; rewrite E1, E2, E3, E4, E5; reflexivity|].
  simpl. exact IH.
Qed.

Lemma find_all_false :
  forall (A : Type) (f : A -> bool) (l : list A),
    (forall x, In x l -> f x = false) -> List.find f l = None.
Proof.
  intros A f l. induction l as [|x l IH]; intros H; [reflexivity|].
  simpl. rewrite (H x (or_introl eq_refl)). apply IH.
  intros y Hy. apply H. right; exact Hy.
Qed.

(** The recursion on the path is the loop of the source: it ends where
    [dirname(currentDir)] is [currentDir], and goes on from
    [dirname(currentDir)] after a directory without a lock file. *)
Lemma findPackageManagerFrom_loop :
  forall w dir,
    (Path.dirname dir = dir -> findPackageManagerFrom w dir = "npx")
    /\ (Path.dirname dir <> dir ->
        findPackageManagerFrom w dir
        = match probe w dir with
          | Some pm => pm
          | None => findPackageManagerFrom w (Path.dirname dir)
          end).
Proof.
  intros w [|x parent]; split; intros H.
  - reflexivity.
  - contradiction H; reflexivity.
  - exfalso. simpl in H. apply (f_equal (@List.length string)) in H.
    simpl in H. lia.
  - reflexivity.
Qed.

(** C7, amended. If the package-manager environment variable is set to a
    non-empty value, the external tool is invoked directly, with no
    launcher prefix. Otherwise (the variable is not set or is empty) the
    search walks upward from the working directory: the nearest
    directory that holds a lock file decides, and among the lock files
    present there the order is pnpm, yarn, bun, the npm equivalent, the
    deno equivalent; if there is no lock file in any directory from the
    working directory up to the root, [npx] is the launcher. In each
    case the subprocess call starts with these words. *)
Theorem launcher_selection :
  forall w : World,
    (forall v, npm_config_user_agent env = Some v -> v <> "" ->
       launcher env w = ["wrangler"])
    /\ (npm_config_user_agent env = None \/ npm_config_user_agent env = Some "" ->
          (forall d,
              List.find (holdsLockFile w) (visited (cwd env)) = Some d ->
              launcher env w = launcherIn w d)
          /\ ((forall d, In d (visited (cwd env) ++ [[]])%list ->
                         holdsLockFile w d = false) ->
              launcher env w = ["npx"; "wrangler"]))
    /\ (forall sql,
          spawned (fst (executeSQL env session sql w))
          = [(launcher env w ++ d1Args session sql)%list]).
Proof.
  intros w. split; [|split].
  - intros v Hv Hne. unfold launcher. rewrite Hv.
    destruct v; [contradiction|reflexivity].
  - intros H.
    assert (Hw : launcher env w = launcherByLockFile w (cwd env)).
    { apply launcher_walk; [|reflexivity]. destruct H as [-> | ->]; reflexivity. }
    rewrite Hw. unfold launcherByLockFile. split.
    + intros d ->. reflexivity.
    + intros Hnone. rewrite find_all_false; [reflexivity|].
      intros d Hd. apply Hnone. apply in_or_app; left; exact Hd.
  - intros sql. apply executeSQL_spawned.
Qed.

(** *** Batches *)

Lemma renderItem_batch :
  forall item b, isBatch item b -> renderItem item = (renderBatch b, inr tt).
Proof.
  intros item [m rows ok] (props & -> & Hs & Hr & Hm).
  simpl in Hs, Hr, Hm.
  unfold renderItem, renderBatch, bind, lift, emit, ret, Json.get; simpl.
  rewrite Hs, Hr, Hm. destruct ok; simpl; [|reflexivity].
  destruct rows as [|row rows]; destruct m as [|kv m]; reflexivity.
Qed.

Lemma forEach_batches :
  forall items batches,
    Forall2 isBatch items batches ->
    forEach items = (flat_map renderBatch batches, inr tt).
Proof.
  induction 1 as [|item b items batches Hb _ IH]; [reflexivity|].
  simpl. rewrite (renderItem_batch item b Hb), IH. reflexivity.
Qed.

Lemma report_batches :
  forall result items batches,
    error result = None ->
    status result = Some 0%Z ->
    JSON_parse (stdout result) = Some (JArr items) ->
    Forall2 isBatch items batches ->
    report result = (flat_map renderBatch batches, inr tt).
Proof.
  intros result items batches He Hs Hp Hb. unfold report.
  rewrite He, Hs, Hp. simpl. unfold bind, lift; simpl.
  rewrite (forEach_batches items batches Hb). reflexivity.
Qed.

(** What is thrown for a result that is a failure. *)
Lemma report_failure :
  forall result,
    error result <> None \/ status result <> Some 0%Z
      \/ JSON_parse (stdout result) = None ->
    exists e, report result = ([], inl e).
Proof.
  intros result H. unfold report.
  destruct (error result) as [e|]; [eexists; reflexivity|].
  destruct (status result) as [n|] eqn:Hs; simpl.
  - destruct (Z.eqb_spec n 0) as [->|Hn]; simpl; [|eexists; reflexivity].
    destruct (JSON_parse (stdout result)); [|eexists; reflexivity].
    destruct H as [H | [H | H]]; [contradiction H; reflexivity
                                 |contradiction H; reflexivity|discriminate].
  - eexists; reflexivity.
Qed.

(** An execution never ends the process. *)
Lemma executeSQL_exits :
  forall sql w, exits (fst (executeSQL env session sql w)) = [].
Proof.
  intros sql w. destruct (executeSQL_runs sql w) as (c & a & Hc).
  destruct (spawnSync w c a) as [w' r] eqn:Hs.
  rewrite (executeSQL_shape sql w c a w' r Hc Hs). simpl.
  rewrite exits_app, (console_exits _ (debugLine_console c a)). simpl.
  apply console_exits.
  apply caught_console. unfold bind, lift. destruct r as [e|res]; [reflexivity|].
  pose proof (report_console res) as H. destruct (report res); assumption.
Qed.

End Executor.

(** ** The line handler *)

Section LineHandler.

Context {host : Host}.
Variable env : Env.
Variable session : Session.

Import JSFacts.

Lemma prefix_app :
  forall p s, String.prefix p s = true -> exists r, s = p ++ r.
Proof.
  induction p as [|a p IH]; intros s H.
  - exists s; reflexivity.
  - destruct s as [|b s]; simpl in H; [discriminate|].
    destruct (ascii_dec a b) as [->|]; [|discriminate].
    destruct (IH _ H) as [r ->]. exists r; reflexivity.
Qed.

Lemma startsWith_app : forall p r, JS.startsWith (p ++ r) p = true.
Proof.
  unfold JS.startsWith. induction p as [|a p IH]; intros r; simpl.
  - destruct r; reflexivity.
  - destruct (ascii_dec a a); [apply IH|contradiction].
Qed.

(** Only the trimmed line matters. *)
Lemma onLine_padded :
  forall lead s trail w,
    allWhiteSpace lead = true -> allWhiteSpace trail = true ->
    onLine env session (lead ++ s ++ trail) w = onLine env session s w.
Proof.
  intros lead s trail w Hl Ht. unfold onLine.
  rewrite trim_padded by assumption. reflexivity.
Qed.

Lemma onLine_blank :
  forall input w, allWhiteSpace input = true ->
    onLine env session input w = ([rl_prompt], w, Prompting).
Proof.
  intros input w H. unfold onLine. rewrite trim_allWhiteSpace by assumption.
  reflexivity.
Qed.

(** A line whose lower-case form starts with [.schema] reaches the
    fifth test of the handler and no other. *)
Lemma onLine_schema :
  forall input w,
    JS.startsWith (JS.toLowerCase (JS.trim input)) ".schema" = true ->
    onLine env session input w
    = thenPrompt (showSchema env session
                    (nth_error (JS.split " " (JS.trim input)) 1) w).
Proof.
  intros input w H. unfold onLine. rewrite H.
  destruct (prefix_app _ _ H) as [r Hr].
  assert (Hne : String.eqb (JS.trim input) "" = false).
  { destruct (JS.trim input); [discriminate Hr|reflexivity]. }
  rewrite Hne, Hr. reflexivity.
Qed.

(** A line that is a command word up to the case of its letters is not
    changed by trimming and has the command word as lower-case form. *)
Lemma command_word :
  forall s word,
    equalsIgnoreCase s word = true ->
    noWhiteSpace word = true ->
    JS.toLowerCase word = word ->
    JS.trim s = s /\ JS.toLowerCase s = word.
Proof.
  intros s word He Hw Hl. split.
  - apply trim_noWhiteSpace.
    rewrite (equalsIgnoreCase_noWhiteSpace _ _ He). exact Hw.
  - rewrite (equalsIgnoreCase_toLowerCase _ _ He). exact Hl.
Qed.

Lemma onLine_schema_word :
  forall s rest w,
    equalsIgnoreCase s ".schema" = true ->
    onLine env session (s ++ rest) w
    = thenPrompt (showSchema env session
                    (nth_error (List.tl (JS.split " " (JS.trimEnd rest))) 0) w).
Proof.
  intros s rest w He.
  assert (Hs : noWhiteSpace s = true).
  { rewrite (equalsIgnoreCase_noWhiteSpace _ _ He). reflexivity. }
  pose proof (equalsIgnoreCase_toLowerCase _ _ He) as Hl.
  destruct s as [|c x]; [discriminate He|].
  rewrite onLine_schema.
  - rewrite trim_noWhiteSpace_app by assumption.
    rewrite split_noSpace_app by (apply noWhiteSpace_noSpace; assumption).
    reflexivity.
  - rewrite trim_noWhiteSpace_app by assumption.
    rewrite toLowerCase_app, Hl. apply (startsWith_app ".schema").
Qed.

(** C8. Every input line is trimmed before it is interpreted: white
    space around a line changes nothing; a line of white space only
    shows the prompt again and executes nothing; the dot-commands
    [.exit], [.quit], [.help], [.tables] and [.schema] are recognised
    whatever the case of their letters ([.EXIT] ends the session as
    [.exit] does). *)
Theorem lines_are_trimmed_and_commands_ignore_case :
  forall w : World,
    (forall lead s trail,
        allWhiteSpace lead = true -> allWhiteSpace trail = true ->
        onLine env session (lead ++ s ++ trail) w = onLine env session s w)
    /\ (forall input,
          allWhiteSpace input = true \/ JS.trim input = "" ->
          onLine env session input w = ([rl_prompt], w, Prompting))
    /\ (forall s,
          equalsIgnoreCase s ".exit" = true \/ equalsIgnoreCase s ".quit" = true ->
          onLine env session s w = (exit, w, Terminated 0))
    /\ (forall s,
          equalsIgnoreCase s ".help" = true ->
          onLine env session s w = ((showHelp ++ [rl_prompt])%list, w, Prompting))
    /\ (forall s,
          equalsIgnoreCase s ".tables" = true ->
          onLine env session s w = thenPrompt (showTables env session w))
    /\ (forall s rest,
          equalsIgnoreCase s ".schema" = true ->
          onLine env session (s ++ rest) w = onLine env session (".schema" ++ rest) w
          /\ exists tableName,
               onLine env session (s ++ rest) w
               = thenPrompt (showSchema env session tableName w)).
Proof.
  intros w. repeat split.
  - intros; apply onLine_padded; assumption.
  - intros input [H | H]; [apply onLine_blank; assumption|].
    unfold onLine. rewrite H. reflexivity.
  - intros s [H | H];
      destruct (command_word _ _ H eq_refl eq_refl) as [Ht Hl];
      unfold onLine; rewrite Ht, Hl;
      (destruct s; [discriminate H|reflexivity]).
  - intros s H. destruct (command_word _ _ H eq_refl eq_refl) as [Ht Hl].
    unfold onLine; rewrite Ht, Hl. destruct s; [discriminate H|reflexivity].
  - intros s H. destruct (command_word _ _ H eq_refl eq_refl) as [Ht Hl].
    unfold onLine; rewrite Ht, Hl. destruct s; [discriminate H|reflexivity].
  - rewrite (onLine_schema_word s rest w H).
    rewrite (onLine_schema_word ".schema" rest w eq_refl). reflexivity.
  - eexists. apply onLine_schema_word; assumption.
Qed.

(** *** Lines that run a statement *)

Lemma thenPrompt_eq :
  forall t (w' : World), thenPrompt (t, w') = ((t ++ [rl_prompt])%list, w', Prompting).
Proof. reflexivity. Qed.

Lemma onLine_cases :
  forall input w,
    onLine env session input w = ([rl_prompt], w, Prompting)
    \/ onLine env session input w = (exit, w, Terminated 0)
    \/ onLine env session input w = ((showHelp ++ [rl_prompt])%list, w, Prompting)
    \/ exists sql,
         onLine env session input w = thenPrompt (executeSQL env session sql w).
Proof.
  intros input w. unfold onLine, showTables, showSchema.
  repeat match goal with
         | |- context [if ?b then _ else _] => destruct b
         end; eauto 6.
Qed.

(** A subprocess call in the trace of a line is the call of the one
    statement the line runs. *)
Lemma onLine_spawn :
  forall input w command args,
    In (spawn command args) (fst (fst (onLine env session input w))) ->
    exists sql,
      onLine env session input w = thenPrompt (executeSQL env session sql w)
      /\ (launcher env w ++ d1Args session sql)%list = command :: args.
Proof.
  intros input w command args Hin.
  destruct (onLine_cases input w) as [H | [H | [H | [sql H]]]];
    try (rewrite H in Hin; simpl in Hin;
         repeat destruct Hin as [Hin | Hin]; try discriminate; contradiction).
  exists sql; split; [assumption|].
  rewrite H in Hin. destruct (executeSQL env session sql w) as [t w'] eqn:He.
  simpl in Hin. apply in_app_or in Hin as [Hin | [Hin | []]]; [|discriminate].
  apply In_spawned in Hin.
  assert (Hs : spawned t = [(launcher env w ++ d1Args session sql)%list]).
  { rewrite <- (executeSQL_spawned env session sql w), He. reflexivity. }
  rewrite Hs in Hin. destruct Hin as [Hin | []]. exact Hin.
Qed.

(** C2. Whenever the subprocess of an execution attempt fails, because
    [spawnSync] fails with an error, or the exit status is not zero,
    or the captured standard output is not JSON, the error is caught
    and reported by one [Execution failed:] message, and the session is
    not terminated: the prompt is shown next and the loop goes on with
    the lines that follow. *)
Theorem failed_execution_returns_to_prompt :
  forall input w command args w' r,
    In (spawn command args) (fst (fst (onLine env session input w))) ->
    spawnSync w command args = (w', r) ->
    ((exists e, r = inl e)
     \/ exists result,
          r = inr result
          /\ (error result <> None
              \/ status result <> Some 0%Z
              \/ JSON_parse (stdout result) = None)) ->
    exists sql e,
      onLine env session input w
      = ((console_log [Text (JS.nl ++ "Executing: " ++ sql)]
            :: fst (debugLine env command args)
            ++ [spawn command args;
                console_error [Text "Execution failed:"; Thrown e];
                rl_prompt])%list,
         w', Prompting)
      /\ forall rest,
           runLines env session (input :: rest) w
           = ((fst (fst (onLine env session input w))
                 ++ fst (runLines env session rest w'))%list,
              snd (runLines env session rest w')).
Proof.
  intros input w command args w' r Hin Hs Hf.
  destruct (onLine_spawn input w command args Hin) as (sql & Ho & Hc).
  assert (He : exists e, (result <- lift r ;; report result) = ([], inl e)).
  { destruct Hf as [[e ->] | (result & -> & Hf)]; [eexists; reflexivity|].
    destruct (report_failure result Hf) as [e He].
    exists e. unfold bind, lift. rewrite He. reflexivity. }
  destruct He as [e He]. exists sql, e.
  assert (Hl : onLine env session input w
               = ((console_log [Text (JS.nl ++ "Executing: " ++ sql)]
                     :: fst (debugLine env command args)
                     ++ [spawn command args;
                         console_error [Text "Execution failed:"; Thrown e];
                         rl_prompt])%list,
                  w', Prompting)).
  { rewrite Ho, (executeSQL_shape env session sql w command args w' r Hc Hs), He.
    rewrite thenPrompt_eq. simpl. rewrite <- app_assoc. reflexivity. }
  split; [exact Hl|].
  intros rest. simpl runLines. rewrite Hl. simpl.
  destruct (runLines env session rest w'); reflexivity.
Qed.

(** C3. When the response parses as an array of batches, the batches are
    rendered in the order of the array. For a batch whose success flag
    is true: a success notice, then the dump of the rows if there are
    any or else a notice that no results were returned, then the
    metadata line only if the metadata mapping is not empty. For a batch
    whose flag is false: a failure notice and the metadata. A failed
    batch is no error of the execution: the batches after it are
    rendered, no [Execution failed:] message is printed and the prompt
    comes back. *)
Theorem batches_are_rendered_in_order :
  forall input w command args w' result items batches,
    In (spawn command args) (fst (fst (onLine env session input w))) ->
    spawnSync w command args = (w', inr result) ->
    error result = None ->
    status result = Some 0%Z ->
    JSON_parse (stdout result) = Some (JArr items) ->
    Forall2 isBatch items batches ->
    exists sql,
      onLine env session input w
      = ((console_log [Text (JS.nl ++ "Executing: " ++ sql)]
            :: fst (debugLine env command args)
            ++ spawn command args :: flat_map renderBatch batches
            ++ [rl_prompt])%list,
         w', Prompting).
Proof.
  intros input w command args w' result items batches Hin Hs He Hz Hp Hb.
  destruct (onLine_spawn input w command args Hin) as (sql & Ho & Hc).
  exists sql.
  rewrite Ho, (executeSQL_shape env session sql w command args w' _ Hc Hs).
  unfold bind at 1, lift.
  rewrite (report_batches result items batches He Hz Hp Hb).
  rewrite thenPrompt_eq. simpl. rewrite <- app_assoc. reflexivity.
Qed.

(** *** Dot-commands that synthesise SQL *)

Lemma spawned_thenPrompt :
  forall r : list event * World,
    spawned (fst (fst (thenPrompt r))) = spawned (fst r).
Proof.
  intros [t w']. simpl. rewrite spawned_app. simpl. apply app_nil_r.
Qed.

(** C5. When [.tables] is entered, the statement that is synthesised and
    executed is exactly the text below: it is announced, and it is the
    last argument of the one subprocess call. *)
Theorem tables_command_sql :
  forall input w,
    JS.toLowerCase (JS.trim input) = ".tables" ->
    onLine env session input w
    = thenPrompt
        (executeSQL env session
           "SELECT name FROM sqlite_master WHERE type='table' AND name NOT LIKE 'sqlite_%' ORDER BY name;"
           w)
    /\ spawned (fst (fst (onLine env session input w)))
       = [ (launcher env w
              ++ d1Args session
                   "SELECT name FROM sqlite_master WHERE type='table' AND name NOT LIKE 'sqlite_%' ORDER BY name;")%list ].
Proof.
  intros input w H.
  assert (Ho : onLine env session input w
               = thenPrompt (showTables env session w)).
  { unfold onLine. rewrite H.
    destruct (JS.trim input); [discriminate H|reflexivity]. }
  rewrite Ho. split; [reflexivity|].
  rewrite spawned_thenPrompt. apply executeSQL_spawned.
Qed.

Lemma quotes_app : forall a b, quotes (a ++ b) = quotes a + quotes b.
Proof.
  induction a as [|c a IH]; intros b; simpl; [reflexivity|].
  rewrite IH. apply Nat.add_assoc.
Qed.

Lemma trimEnd_noWhiteSpace : forall x, noWhiteSpace x = true -> JS.trimEnd x = x.
Proof.
  intros x H. rewrite <- (app_empty_r x) at 1.
  rewrite trimEnd_noWhiteSpace_app by assumption. apply app_empty_r.
Qed.

(** C6, amended. [.schema] without an argument synthesises the query
    for all tables; [.schema name] synthesises the single-table query
    with the name put between the quotes as it is, nothing escaped.
    Every quote character of the name is therefore in the query text:
    the text has four single quotes plus those of the name, an odd
    number exactly when the name has an odd number of them. *)
Theorem schema_command_sql :
  forall w : World,
    onLine env session ".schema" w
    = thenPrompt
        (executeSQL env session
           "SELECT name, sql FROM sqlite_master WHERE type='table' AND name NOT LIKE 'sqlite_%' ORDER BY name;"
           w)
    /\ (forall name,
          name <> "" -> noWhiteSpace name = true ->
          onLine env session (".schema " ++ name) w
          = thenPrompt
              (executeSQL env session
                 ("SELECT sql FROM sqlite_master WHERE type='table' AND name='"
                    ++ name ++ "';") w))
    /\ (forall name,
          name <> "" ->
          showSchema env session (Some name) w
          = executeSQL env session
              ("SELECT sql FROM sqlite_master WHERE type='table' AND name='"
                 ++ name ++ "';") w)
    /\ (forall name,
          quotes ("SELECT sql FROM sqlite_master WHERE type='table' AND name='"
                    ++ name ++ "';")
          = 4 + quotes name
          /\ Nat.odd (quotes ("SELECT sql FROM sqlite_master WHERE type='table' AND name='"
                                ++ name ++ "';"))
             = Nat.odd (quotes name)).
Proof.
  intros w.
  assert (Hshow : forall name, name <> "" ->
            showSchema env session (Some name) w
            = executeSQL env session
                ("SELECT sql FROM sqlite_master WHERE type='table' AND name='"
                   ++ name ++ "';") w).
  { intros name Hn. unfold showSchema. destruct name; [contradiction|reflexivity]. }
  assert (Hq : forall name,
            quotes ("SELECT sql FROM sqlite_master WHERE type='table' AND name='"
                      ++ name ++ "';") = 4 + quotes name).
  { intros name. rewrite !quotes_app.
    change (quotes "';") with 1.
    change (quotes "SELECT sql FROM sqlite_master WHERE type='table' AND name='")
      with 3.
    lia. }
  split; [|split; [|split]].
  - reflexivity.
  - intros name Hn Hw.
    change (".schema " ++ name) with (".schema" ++ (" " ++ name)).
    rewrite (onLine_schema_word ".schema" (" " ++ name) w eq_refl).
    assert (Ht : JS.trimEnd (" " ++ name) = " " ++ name).
    { simpl. rewrite (trimEnd_noWhiteSpace name Hw).
      destruct name; [contradiction|reflexivity]. }
    rewrite Ht, split_space. simpl List.tl.
    rewrite (split_noSpace name (noWhiteSpace_noSpace name Hw)). simpl nth_error.
    rewrite (Hshow name Hn). reflexivity.
  - exact Hshow.
  - intros name; split; [apply Hq|].
    rewrite Hq. change (4 + quotes name) with (S (S (S (S (quotes name))))).
    rewrite Nat.odd_succ_succ. apply Nat.odd_succ_succ.
Qed.

(** C9. A trimmed line whose lower-case form only starts with [.schema]
    is a schema command and is not forwarded as SQL, [.schemathing]
    included. The table name is the piece of the trimmed line itself,
    in its own case, between the first space and the second (or the end
    of the line). Two spaces in a row after the command word give an
    empty name, and then the query for all tables. *)
Theorem schema_prefix_and_argument :
  forall w : World,
    (forall input,
        JS.startsWith (JS.toLowerCase (JS.trim input)) ".schema" = true ->
        onLine env session input w
        = thenPrompt (showSchema env session
                        (nth_error (JS.split " " (JS.trim input)) 1) w))
    /\ onLine env session ".schemathing" w
       = thenPrompt
           (executeSQL env session
              "SELECT name, sql FROM sqlite_master WHERE type='table' AND name NOT LIKE 'sqlite_%' ORDER BY name;"
              w)
    /\ (forall word arg rest,
          noSpace word = true -> noSpace arg = true ->
          (rest = "" \/ exists r, rest = " " ++ r) ->
          nth_error (JS.split " " (word ++ " " ++ arg ++ rest)) 1 = Some arg)
    /\ (forall line word arg rest,
          JS.trim line = line ->
          JS.startsWith (JS.toLowerCase line) ".schema" = true ->
          line = word ++ " " ++ arg ++ rest ->
          noSpace word = true -> noSpace arg = true -> arg <> "" ->
          (rest = "" \/ exists r, rest = " " ++ r) ->
          onLine env session line w
          = thenPrompt
              (executeSQL env session
                 ("SELECT sql FROM sqlite_master WHERE type='table' AND name='"
                    ++ arg ++ "';") w))
    /\ (forall word rest,
          JS.startsWith (JS.toLowerCase word) ".schema" = true ->
          noWhiteSpace word = true ->
          onLine env session (word ++ "  " ++ rest) w
          = thenPrompt
              (executeSQL env session
                 "SELECT name, sql FROM sqlite_master WHERE type='table' AND name NOT LIKE 'sqlite_%' ORDER BY name;"
                 w)).
Proof.
  intros w. split; [|split; [|split; [|split]]].
  - intros input H. apply onLine_schema; assumption.
  - reflexivity.
  - intros; apply split_second; assumption.
  - intros line word arg rest Ht Hp -> Hw Ha Hne Hr.
    rewrite onLine_schema by (rewrite Ht; exact Hp).
    rewrite Ht, split_second by assumption.
    unfold showSchema. destruct arg; [contradiction|reflexivity].
  - intros word rest Hp Hw.
    destruct word as [|c x]; [discriminate Hp|].
    destruct (prefix_app _ _ Hp) as [r Hr].
    assert (Htrim : JS.trim (String c x ++ "  " ++ rest)
                    = String c x ++ JS.trimEnd ("  " ++ rest))
      by (apply trim_noWhiteSpace_app; assumption).
    rewrite onLine_schema.
    + rewrite Htrim.
      rewrite split_noSpace_app by (apply noWhiteSpace_noSpace; assumption).
      simpl JS.trimEnd. destruct (JS.trimEnd rest); reflexivity.
    + rewrite Htrim, toLowerCase_app, Hr, app_assoc_string.
      apply startsWith_app.
Qed.

(** *** The loop *)


(** The exit codes in the trace of one line, by the state it leaves. *)
Lemma onLine_exits :
  forall input w,
    (snd (onLine env session input w) = Terminated 0
     /\ exits (fst (fst (onLine env session input w))) = [0%Z])
    \/ (snd (onLine env session input w) = Prompting
        /\ exits (fst (fst (onLine env session input w))) = []).
Proof.
  intros input w.
  destruct (onLine_cases input w) as [H | [H | [H | [sql H]]]]; rewrite H.
  - right; split; reflexivity.
  - left; split; reflexivity.
  - right; split; reflexivity.
  - right. pose proof (executeSQL_exits env session sql w) as Hx.
    destruct (executeSQL env session sql w) as [t w']. simpl in *.
    split; [reflexivity|]. rewrite exits_app, Hx. reflexivity.
Qed.

(** X2. Every session on a finite input ends the process exactly once,
    with exit code 0: by [.exit] or [.quit], or at the end of the input. *)
Theorem session_exits_with_code_0 :
  forall lines w, exits (fst (runLines env session lines w)) = [0%Z].
Proof.
  induction lines as [|line rest IH]; intros w; [reflexivity|].
  simpl runLines.
  destruct (onLine_exits line w) as [[Hst Hx] | [Hst Hx]];
    destruct (onLine env session line w) as [[t w'] st];
    simpl in Hst, Hx; subst st.
  - exact Hx.
  - specialize (IH w'). destruct (runLines env session rest w') as [t' w''].
    simpl in *. rewrite exits_app, Hx, IH. reflexivity.
Qed.

(** X3. A line that is not blank and is none of the dot-commands is
    forwarded as SQL: the trimmed line is the statement executed and the
    last argument of the subprocess call. *)
Theorem other_lines_are_forwarded_as_sql :
  forall input w,
    JS.trim input <> "" ->
    JS.toLowerCase (JS.trim input) <> ".exit" ->
    JS.toLowerCase (JS.trim input) <> ".quit" ->
    JS.toLowerCase (JS.trim input) <> ".help" ->
    JS.toLowerCase (JS.trim input) <> ".tables" ->
    JS.startsWith (JS.toLowerCase (JS.trim input)) ".schema" = false ->
    onLine env session input w
    = thenPrompt (executeSQL env session (JS.trim input) w)
    /\ spawned (fst (fst (onLine env session input w)))
       = [(launcher env w ++ d1Args session (JS.trim input))%list].
Proof.
  intros input w H0 H1 H2 H3 H4 H5.
  assert (Ho : onLine env session input w
               = thenPrompt (executeSQL env session (JS.trim input) w)).
  { unfold onLine.
    apply String.eqb_neq in H0, H1, H2, H3, H4.
    rewrite H0, H1, H2, H3, H4, H5. reflexivity. }
  split; [exact Ho|].
  rewrite Ho, spawned_thenPrompt. apply executeSQL_spawned.
Qed.

(** X4. A subprocess that exits with a status other than 0 is reported
    by one failure line that carries the status and the captured
    standard output. *)
Theorem nonzero_exit_is_reported_with_output :
  forall input w command args w' result n,
    In (spawn command args) (fst (fst (onLine env session input w))) ->
    spawnSync w command args = (w', inr result) ->
    error result = None ->
    status result = Some n ->
    n <> 0%Z ->
    exists sql,
      onLine env session input w
      = ((console_log [Text (JS.nl ++ "Executing: " ++ sql)]
            :: fst (debugLine env command args)
            ++ [spawn command args;
                console_error
                  [Text "Execution failed:";
                   Thrown (Error ("Command failed with status "
                                    ++ JS.numberToString n ++ ": "
                                    ++ stdout result))];
                rl_prompt])%list,
         w', Prompting).
Proof.
  intros input w command args w' result n Hin Hs He Hst Hn.
  destruct (onLine_spawn input w command args Hin) as (sql & Ho & Hc).
  exists sql.
  rewrite Ho, (executeSQL_shape env session sql w command args w' _ Hc Hs).
  unfold bind at 1, lift, report. rewrite He, Hst. simpl.
  destruct (Z.eqb_spec n 0) as [->|_]; [contradiction|]. simpl.
  rewrite <- app_assoc. reflexivity.
Qed.

End LineHandler.

(** ** Concrete runs *)

(** C1 on a session started with [mydb --local]. *)
Lemma command_line_after_launcher_witness :
  startup Demo.args = ([], Some Demo.session)
  /\ spawned (fst (executeSQL (host := Demo.host) Demo.env Demo.session "SELECT 1;" []))
     = [["npx"; "wrangler"; "d1"; "execute"; "mydb"; "--local"; "--json";
         "--command"; "SELECT 1;"]].
Proof.
  split; [reflexivity|].
  destruct (command_line_after_launcher (host := Demo.host) Demo.env Demo.session
              Demo.args eq_refl "SELECT 1;" [])
    as (name & Hn & _ & Hs & _).
  rewrite Hs. injection Hn as <-. reflexivity.
Defined.

(** C7 as stated fails: with the variable set, to the empty string, the
    tool is not invoked directly; the lock file of the working directory
    decides and the command is [pnpm]. *)
Lemma empty_user_agent_walks :
  npm_config_user_agent (mkEnv (Some "") None ["app"; "home"]) = Some ""
  /\ launcher (host := Demo.host) (mkEnv (Some "") None ["app"; "home"])
       [["pnpm-lock.yaml"; "app"; "home"]]
     = ["pnpm"; "wrangler"]
  /\ spawned (fst (executeSQL (host := Demo.host)
                     (mkEnv (Some "") None ["app"; "home"]) Demo.session
                     "SELECT 1;" [["pnpm-lock.yaml"; "app"; "home"]]))
     = [["pnpm"; "wrangler"; "d1"; "execute"; "mydb"; "--local"; "--json";
         "--command"; "SELECT 1;"]].
Proof. repeat split. Qed.

(** C7, amended, on three environments: the variable set; a
    [pnpm-lock.yaml] in the parent directory while the working directory
    has a [deno.lock] and a [yarn.lock]; no lock file at all. *)
Lemma launcher_selection_witness :
  launcher (host := Demo.host) (mkEnv (Some "pnpm/9.0.0") None ["app"; "home"])
    [["yarn.lock"; "app"; "home"]]
  = ["wrangler"]
  /\ launcher (host := Demo.host) Demo.env
       [["pnpm-lock.yaml"; "home"]; ["deno.lock"; "app"; "home"];
        ["yarn.lock"; "app"; "home"]]
     = ["yarn"; "wrangler"]
  /\ launcher (host := Demo.host) Demo.env [] = ["npx"; "wrangler"].
Proof.
  split; [|split].
  - apply (proj1 (launcher_selection (host := Demo.host)
                    (mkEnv (Some "pnpm/9.0.0") None ["app"; "home"]) Demo.session
                    [["yarn.lock"; "app"; "home"]]) "pnpm/9.0.0" eq_refl).
    discriminate.
  - apply (proj1 (proj1 (proj2 (launcher_selection (host := Demo.host)
                                  Demo.env Demo.session
                                  [["pnpm-lock.yaml"; "home"]; ["deno.lock"; "app"; "home"];
                                   ["yarn.lock"; "app"; "home"]]))
                    (or_introl eq_refl)) ["app"; "home"]).
    reflexivity.
  - apply (proj2 (proj1 (proj2 (launcher_selection (host := Demo.host)
                                  Demo.env Demo.session []))
                    (or_introl eq_refl))).
    intros d Hd. reflexivity.
Defined.

(** C8 on padded and capitalised lines. *)
Lemma lines_are_trimmed_and_commands_ignore_case_witness :
  onLine (host := Demo.host) Demo.env Demo.session ("  " ++ ".help" ++ " ") []
  = onLine (host := Demo.host) Demo.env Demo.session ".help" []
  /\ onLine (host := Demo.host) Demo.env Demo.session "   " []
     = ([rl_prompt], [], Prompting)
  /\ onLine (host := Demo.host) Demo.env Demo.session ".EXIT" []
     = (exit, [], Terminated 0)
  /\ onLine (host := Demo.host) Demo.env Demo.session ".Help" []
     = ((showHelp ++ [rl_prompt])%list, [], Prompting)
  /\ onLine (host := Demo.host) Demo.env Demo.session ".TABLES" []
     = thenPrompt (showTables (host := Demo.host) Demo.env Demo.session [])
  /\ onLine (host := Demo.host) Demo.env Demo.session (".Schema" ++ " users") []
     = onLine (host := Demo.host) Demo.env Demo.session (".schema" ++ " users") [].
Proof.
  destruct (lines_are_trimmed_and_commands_ignore_case
              (host := Demo.host) Demo.env Demo.session [])
    as (Hpad & Hblank & Hexit & Hhelp & Htables & Hschema).
  repeat apply conj.
  - apply Hpad; reflexivity.
  - apply Hblank; left; reflexivity.
  - apply Hexit; left; reflexivity.
  - apply Hhelp; reflexivity.
  - apply Htables; reflexivity.
  - apply (Hschema ".Schema" " users"); reflexivity.
Defined.

(** C2 on a statement the child rejects with status 1. *)
Lemma failed_execution_returns_to_prompt_witness :
  spawnSync (Host := Demo.host) [] "npx"
    ["wrangler"; "d1"; "execute"; "mydb"; "--local"; "--json"; "--command";
     "SELECT 2;"]
  = ([], inr (mkSpawnSyncReturns None (Some 1%Z) "no such table"))
  /\ exists sql e,
       onLine (host := Demo.host) Demo.env Demo.session "SELECT 2;" []
       = ((console_log [Text (JS.nl ++ "Executing: " ++ sql)]
             :: [spawn "npx"
                   ["wrangler"; "d1"; "execute"; "mydb"; "--local"; "--json";
                    "--command"; "SELECT 2;"];
                 console_error [Text "Execution failed:"; Thrown e];
                 rl_prompt])%list,
          [], Prompting).
Proof.
  split; [reflexivity|].
  destruct (failed_execution_returns_to_prompt (host := Demo.host)
              Demo.env Demo.session "SELECT 2;" [] "npx"
              ["wrangler"; "d1"; "execute"; "mydb"; "--local"; "--json";
               "--command"; "SELECT 2;"]
              [] (inr (mkSpawnSyncReturns None (Some 1%Z) "no such table")))
    as (sql & e & Ho & _).
  - simpl. right; left; reflexivity.
  - reflexivity.
  - right. eexists; split; [reflexivity|]. right; left. discriminate.
  - exists sql, e. exact Ho.
Defined.

(** C3 on the response with one successful batch of one row and empty
    metadata: no metadata line. *)
Lemma batches_are_rendered_in_order_witness :
  Forall2 isBatch [Demo.batch]
    [mkD1Result [] [JObj [("id", JNum 1%float)]] true]
  /\ exists sql,
       onLine (host := Demo.host) Demo.env Demo.session "SELECT 1;" []
       = ((console_log [Text (JS.nl ++ "Executing: " ++ sql)]
             :: [spawn "npx"
                   ["wrangler"; "d1"; "execute"; "mydb"; "--local"; "--json";
                    "--command"; "SELECT 1;"];
                 console_log [Text "Success"];
                 console_log [Text "[ { id: 1 } ]"];
                 rl_prompt])%list,
          [], Prompting).
Proof.
  assert (Hb : Forall2 isBatch [Demo.batch]
                 [mkD1Result [] [JObj [("id", JNum 1%float)]] true]).
  { repeat constructor. eexists. repeat split. }
  split; [exact Hb|].
  destruct (batches_are_rendered_in_order (host := Demo.host)
              Demo.env Demo.session "SELECT 1;" [] "npx"
              ["wrangler"; "d1"; "execute"; "mydb"; "--local"; "--json";
               "--command"; "SELECT 1;"]
              [] (mkSpawnSyncReturns None (Some 0%Z) "[ok]")
              [Demo.batch] [mkD1Result [] [JObj [("id", JNum 1%float)]] true])
    as (sql & Ho); try reflexivity.
  - simpl. right; left; reflexivity.
  - exact Hb.
  - exists sql. exact Ho.
Defined.

(** C5 on a padded, capitalised [.tables]. *)
Lemma tables_command_sql_witness :
  spawned (fst (fst (onLine (host := Demo.host) Demo.env Demo.session " .Tables " [])))
  = [["npx"; "wrangler"; "d1"; "execute"; "mydb"; "--local"; "--json"; "--command";
      "SELECT name FROM sqlite_master WHERE type='table' AND name NOT LIKE 'sqlite_%' ORDER BY name;"]].
Proof.
  rewrite (proj2 (tables_command_sql (host := Demo.host) Demo.env Demo.session
                    " .Tables " [] eq_refl)).
  reflexivity.
Defined.

(** C6 as stated fails: the name [it''s] contains quote characters, and
    the query text produced for it is the well-formed statement that
    asks for the table named [it's]. *)
Lemma doubled_quote_name_is_well_formed :
  quotes "it''s" = 2
  /\ onLine (host := Demo.host) Demo.env Demo.session ".schema it''s" []
     = thenPrompt
         (executeSQL (host := Demo.host) Demo.env Demo.session
            "SELECT sql FROM sqlite_master WHERE type='table' AND name='it''s';" [])
  /\ schemaQueryTable
       "SELECT sql FROM sqlite_master WHERE type='table' AND name='it''s';"
     = Some "it's".
Proof. repeat split. Qed.

(** C6, amended, on the names [users] and [it's]. *)
Lemma schema_command_sql_witness :
  onLine (host := Demo.host) Demo.env Demo.session (".schema " ++ "users") []
  = thenPrompt
      (executeSQL (host := Demo.host) Demo.env Demo.session
         ("SELECT sql FROM sqlite_master WHERE type='table' AND name='"
            ++ "users" ++ "';") [])
  /\ showSchema (host := Demo.host) Demo.env Demo.session (Some "it's") []
     = executeSQL (host := Demo.host) Demo.env Demo.session
         ("SELECT sql FROM sqlite_master WHERE type='table' AND name='"
            ++ "it's" ++ "';") [].
Proof.
  destruct (schema_command_sql (host := Demo.host) Demo.env Demo.session [])
    as (_ & Hline & Hshow & _).
  split.
  - apply Hline; [discriminate|reflexivity].
  - apply Hshow. discriminate.
Defined.

(** C9 on [.schema Users x] and on [.SCHEMAS  users]. *)
Lemma schema_prefix_and_argument_witness :
  onLine (host := Demo.host) Demo.env Demo.session ".schema Users x" []
  = thenPrompt
      (executeSQL (host := Demo.host) Demo.env Demo.session
         ("SELECT sql FROM sqlite_master WHERE type='table' AND name='"
            ++ "Users" ++ "';") [])
  /\ onLine (host := Demo.host) Demo.env Demo.session (".SCHEMAS" ++ "  " ++ "users") []
     = thenPrompt
         (executeSQL (host := Demo.host) Demo.env Demo.session
            "SELECT name, sql FROM sqlite_master WHERE type='table' AND name NOT LIKE 'sqlite_%' ORDER BY name;"
            []).
Proof.
  destruct (schema_prefix_and_argument (host := Demo.host) Demo.env Demo.session [])
    as (_ & _ & _ & Harg & Htwo).
  split.
  - apply (Harg ".schema Users x" ".schema" "Users" " x");
      try reflexivity; [discriminate|].
    right. exists "x". reflexivity.
  - apply Htwo; reflexivity.
Defined.

(** X3 on a padded statement. *)
Lemma other_lines_are_forwarded_as_sql_witness :
  spawned (fst (fst (onLine (host := Demo.host) Demo.env Demo.session
                       "  SELECT 1;  " [])))
  = [["npx"; "wrangler"; "d1"; "execute"; "mydb"; "--local"; "--json"; "--command";
      "SELECT 1;"]].
Proof.
  rewrite (proj2 (other_lines_are_forwarded_as_sql (host := Demo.host)
                    Demo.env Demo.session "  SELECT 1;  " []
                    ltac:(vm_compute; discriminate) ltac:(vm_compute; discriminate)
                    ltac:(vm_compute; discriminate) ltac:(vm_compute; discriminate)
                    ltac:(vm_compute; discriminate) eq_refl)).
  reflexivity.
Defined.

(** X4 on a statement the child rejects with status 1. *)
Lemma nonzero_exit_is_reported_with_output_witness :
  exists sql,
    onLine (host := Demo.host) Demo.env Demo.session "SELECT 2;" []
    = ((console_log [Text (JS.nl ++ "Executing: " ++ sql)]
          :: [spawn "npx"
                ["wrangler"; "d1"; "execute"; "mydb"; "--local"; "--json";
                 "--command"; "SELECT 2;"];
              console_error
                [Text "Execution failed:";
                 Thrown (Error "Command failed with status 1: no such table")];
              rl_prompt])%list,
       [], Prompting).
Proof.
  destruct (nonzero_exit_is_reported_with_output (host := Demo.host)
              Demo.env Demo.session "SELECT 2;" [] "npx"
              ["wrangler"; "d1"; "execute"; "mydb"; "--local"; "--json";
               "--command"; "SELECT 2;"]
              [] (mkSpawnSyncReturns None (Some 1%Z) "no such table") 1%Z)
    as (sql & Ho); try reflexivity.
  - simpl. right; left; reflexivity.
  - discriminate.
  - exists sql. exact Ho.
Defined.

(* ================================================================== *)
(** * Further properties of the code *)
(* ================================================================== *)

(** ** Start-up *)

Lemma startup_accepted :
  forall (a : ParsedArgs) (t : list event) (s : Session),
    startup a = (t, Some s) ->
    t = [] /\ help a = false /\ (local a && remote a) = false
    /\ exists name rest,
         positionals a = name :: rest /\ name <> ""
         /\ s = mkSession name (buildFlags a).
Proof.
  intros a t s H. unfold startup in H.
  destruct (help a); [discriminate|].
  destruct (positionals a) as [|name rest] eqn:Hp; simpl in H; [discriminate|].
  destruct name as [|c name]; [discriminate|].
  destruct (local a && remote a); [discriminate|].
  injection H as <- <-. repeat split.
  exists (String c name), rest. repeat split. discriminate.
Qed.

(** X5. The program starts a session exactly for an argument vector
    that the parser accepts, without [--help], with a first positional
    argument that is not the empty string, and without both locality
    flags; the session then has that name and the flags given, further
    positional arguments are ignored and nothing is printed before the
    banner. For a vector the parser refuses the process ends by the
    parser's error, which nothing catches, and the program prints
    nothing. Otherwise one message is printed and the process exits, with
    code 0 exactly when [--help] was given. *)
Theorem startup_accepts_exactly_valid_arguments :
  forall (host : Host) (env : Env) (argv : list string) (inputs : list input)
         (w : World),
    (exists e,
        accepted argv = false /\ Util.parseArgs argv = inl e
        /\ program env argv inputs w = inl e)
    \/ (exists a message code,
          Util.parseArgs argv = inr a
          /\ (help a = true /\ code = 0%Z
              \/ help a = false /\ code = 1%Z
                 /\ (JS.truthyString (nth_error (positionals a) 0) = false
                     \/ (local a && remote a) = true))
          /\ isConsole message = true
          /\ program env argv inputs w = inr ([message; process_exit code], w))
    \/ (exists a name rest,
          Util.parseArgs argv = inr a
          /\ help a = false /\ positionals a = name :: rest /\ name <> ""
          /\ (local a && remote a) = false
          /\ program env argv inputs w
             = inr ((start (mkSession name (buildFlags a))
                       ++ fst (runInputs env (mkSession name (buildFlags a)) inputs w))%list,
                    snd (runInputs env (mkSession name (buildFlags a)) inputs w))).
Proof.
  intros host env argv inputs w.
  destruct (accepted argv) eqn:Ea.
  2:{ left. destruct (parseArgs_refused argv Ea) as [e He].
      exists e. repeat split; [exact He|]. apply program_refused; exact He. }
  right. pose proof (parseArgs_accepted argv Ea) as Hp.
  set (a := mkParsedArgs _ _ _ _) in Hp.
  unfold program. rewrite Hp. unfold startup.
  destruct (help a) eqn:Hh.
  { left. exists a, (console_log [Text usage]), 0%Z.
    split; [reflexivity|]. split; [left; split; [exact Hh|reflexivity]|].
    split; reflexivity. }
  destruct (positionals a) as [|[|c name] rest] eqn:Hpos; simpl nth_error; cbv iota.
  - left. exists a, (console_error [Text "Database name is required"]), 1%Z.
    split; [reflexivity|]. split; [|split; reflexivity].
    right. split; [exact Hh|]. split; [reflexivity|]. left. rewrite Hpos. reflexivity.
  - left. exists a, (console_error [Text "Database name is required"]), 1%Z.
    split; [reflexivity|]. split; [|split; reflexivity].
    right. split; [exact Hh|]. split; [reflexivity|]. left. rewrite Hpos. reflexivity.
  - destruct (local a && remote a) eqn:Hb.
    + left. exists a, (console_error [Text "Cannot use both local and remote flags"]), 1%Z.
      split; [reflexivity|]. split; [|split; reflexivity].
      right. split; [exact Hh|]. split; [reflexivity|]. right. exact Hb.
    + right. exists a, (String c name), rest.
      split; [reflexivity|]. split; [exact Hh|]. split; [exact Hpos|].
      split; [discriminate|]. split; [exact Hb|].
      destruct (runInputs _ _ _ _); reflexivity.
Qed.

(** ** The executor, further *)

Section MoreExecutor.

Context {host : Host}.
Variable env : Env.
Variable session : Session.

Lemma join_cons :
  forall c a args,
    JS.join " " (c :: a :: args) = c ++ " " ++ JS.join " " (a :: args).
Proof. reflexivity. Qed.

Lemma d1Args_cons :
  forall sql, exists rest, d1Args session sql = "d1" :: "execute" :: rest.
Proof. intros sql. unfold d1Args. simpl. eauto. Qed.

(** The command line has at least two words after the command. *)
Lemma commandLine_long :
  forall sql w command args,
    (launcher env w ++ d1Args session sql)%list = command :: args ->
    exists a args', args = a :: args'.
Proof.
  intros sql w command args H.
  destruct (d1Args_cons sql) as [rest Hd]. rewrite Hd in H.
  pose proof (launcher_cases env w) as Hl. simpl in Hl.
  repeat destruct Hl as [Hl | Hl]; try contradiction;
    rewrite <- Hl in H; injection H as _ <-; eauto.
Qed.

Lemma last_commandLine :
  forall sql w, List.last (launcher env w ++ d1Args session sql)%list "" = sql.
Proof.
  intros sql w. unfold d1Args.
  replace (launcher env w
             ++ ["d1"; "execute"; databaseName session]
             ++ flags session ++ ["--json"; "--command"; sql])%list
    with ((launcher env w
             ++ ["d1"; "execute"; databaseName session]
             ++ flags session ++ ["--json"; "--command"]) ++ [sql])%list
    by (rewrite <- !app_assoc; reflexivity).
  apply last_last.
Qed.

(** X6. With [DEBUG] set to a non-empty value, the one line printed
    between the announcement and the subprocess call is the command line
    of that call, its words joined by single spaces; without it nothing
    is printed there. After the call only console output follows. *)
Theorem debug_line_echoes_the_command :
  forall sql w,
  exists command args rest,
    (launcher env w ++ d1Args session sql)%list = command :: args
    /\ fst (executeSQL env session sql w)
       = (console_log [Text (JS.nl ++ "Executing: " ++ sql)]
            :: (if JS.truthyString (DEBUG env)
                then [console_log
                        [Text ("Using command: " ++ JS.join " " (command :: args))]]
                else [])
            ++ spawn command args :: rest)%list
    /\ forallb isConsole rest = true.
Proof.
  intros sql w. destruct (executeSQL_runs env session sql w) as (c & a & Hc).
  destruct (spawnSync w c a) as [w' r] eqn:Hs.
  exists c, a, (caught (result <- lift r ;; report result)).
  split; [exact Hc|]. split.
  - rewrite (executeSQL_shape env session sql w c a w' r Hc Hs). simpl.
    unfold debugLine. destruct (JS.truthyString (DEBUG env)); [|reflexivity].
    destruct (commandLine_long sql w c a Hc) as (x & args' & ->).
    reflexivity.
  - apply caught_console. unfold bind, lift. destruct r as [e|res]; [reflexivity|].
    pose proof (report_console res) as H. destruct (report res); assumption.
Qed.

(** *** What makes rendering throw *)

Lemma forEach_app :
  forall pre post, forEach (pre ++ post) = (forEach pre ;;; forEach post).
Proof.
  induction pre as [|item pre IH]; intros post; simpl.
  - unfold bind, ret. destruct (forEach post). reflexivity.
  - rewrite IH. unfold bind.
    destruct (renderItem item) as [t1 [e|u]]; [reflexivity|].
    destruct (forEach pre) as [t2 [e|u2]]; [reflexivity|].
    destruct (forEach post) as [t3 r]. rewrite app_assoc. reflexivity.
Qed.

(** X7. Rendering stops at the first item that throws: what is printed
    for the items before it stays, and no item after it is rendered. A
    [null] item is such an item. *)
Theorem rendering_stops_at_the_first_throw :
  forall pre item post e,
    snd (renderItem item) = inl e ->
    forEach (pre ++ item :: post) = forEach (pre ++ [item])
    /\ (snd (forEach pre) = inr tt ->
        forEach (pre ++ item :: post)
        = ((fst (forEach pre) ++ fst (renderItem item))%list, inl e)).
Proof.
  intros pre item post e H.
  assert (Hi : forall l, forEach (item :: l) = (fst (renderItem item), inl e)).
  { intros l. simpl. unfold bind. destruct (renderItem item) as [t r].
    simpl in H. subst r. reflexivity. }
  split.
  - rewrite !forEach_app, !Hi. reflexivity.
  - intros Hp. rewrite forEach_app, Hi. unfold bind.
    destruct (forEach pre) as [t r]. simpl in Hp. subst r. reflexivity.
Qed.

Lemma renderItem_null :
  snd (renderItem JNull)
  = inl (TypeError "Cannot read properties of null (reading 'success')").
Proof. reflexivity. Qed.

(** Rendering emits only events that satisfy a property of all console
    output without a thrown value. *)
Lemma renderItem_events :
  forall p : event -> bool,
    (forall args, p (console_log args) = true) ->
    (forall s, p (console_error [Text s]) = true) ->
    (forall s v, p (console_error [Text s; Value v]) = true) ->
    forall item, forallb p (fst (renderItem item)) = true.
Proof.
  intros p Hlog Herr Hmeta item. unfold renderItem, bind, lift, emit, ret.
  destruct (Json.get item "success") as [e|success]; [reflexivity|].
  destruct (Json.truthy success).
  - destruct (Json.get item "results") as [e|results];
      [simpl; rewrite Hlog; reflexivity|].
    destruct (hasResults results) as [e|nonEmpty];
      [simpl; rewrite Hlog; reflexivity|].
    assert (Hd : forall m : Try unit,
               m = match results, nonEmpty with
                   | Some r, true => displayResults r
                   | _, _ => ([console_log [Text "No results returned"]], inr tt)
                   end ->
               forallb p (fst m) = true).
    { intros m ->. destruct results as [r|]; [destruct nonEmpty|];
        try (simpl; rewrite Hlog; reflexivity).
      unfold displayResults, emit. destruct (lengthIsZero _); simpl;
        rewrite Hlog; reflexivity. }
    specialize (Hd _ eq_refl).
    destruct (match results, nonEmpty with
              | Some r, true => displayResults r
              | _, _ => ([console_log [Text "No results returned"]], inr tt)
              end) as [t [e|u]]; simpl in Hd |- *;
      [rewrite Hlog; assumption|].
    destruct (Json.get item "meta") as [e|meta]; simpl.
    + rewrite app_nil_r, Hlog. assumption.
    + destruct (hasMeta meta); simpl; rewrite forallb_app, Hd, ?Hlog; simpl;
        rewrite ?Hlog; reflexivity.
  - destruct (Json.get item "meta") as [e|meta]; simpl;
      rewrite ?Herr, ?Hmeta; reflexivity.
Qed.

Lemma forEach_events :
  forall p : event -> bool,
    (forall args, p (console_log args) = true) ->
    (forall s, p (console_error [Text s]) = true) ->
    (forall s v, p (console_error [Text s; Value v]) = true) ->
    forall items, forallb p (fst (forEach items)) = true.
Proof.
  intros p Hlog Herr Hmeta. induction items as [|item rest IH]; [reflexivity|].
  simpl. unfold bind.
  pose proof (renderItem_events p Hlog Herr Hmeta item) as Hi.
  destruct (renderItem item) as [t1 [e|u]]; [assumption|].
  destruct (forEach rest) as [t2 r]. simpl in *.
  rewrite forallb_app, Hi, IH. reflexivity.
Qed.

Lemma failures_app :
  forall t1 t2, failures (t1 ++ t2) = (failures t1 ++ failures t2)%list.
Proof.
  induction t1 as [|e t1 IH]; intros t2; [reflexivity|].
  destruct e as [args|args| | |]; simpl; try apply IH.
  destruct args as [|[s|v|x] [|[s'|v'|x'] [|? ?]]]; simpl; rewrite ?IH; reflexivity.
Qed.

Lemma failures_none :
  forall t, forallb (fun e => negb (reportsFailure e)) t = true -> failures t = [].
Proof.
  induction t as [|e t IH]; intros H; [reflexivity|].
  simpl in H. apply andb_true_iff in H as [He Ht].
  destruct e as [args|args| | |]; simpl; try (apply IH; exact Ht).
  destruct args as [|[s|v|x] [|[s'|v'|x'] [|? ?]]]; simpl;
    try (apply IH; exact Ht).
  discriminate He.
Qed.

Lemma renderItem_plain :
  forall item, plainItem item = true -> snd (renderItem item) = inr tt.
Proof.
  intros item Hp. unfold renderItem, bind, lift, emit, ret.
  destruct item as [|b|x|s|items|props]; try discriminate Hp; try reflexivity.
  unfold Json.get. cbv beta iota. simpl in Hp.
  destruct (Json.truthy (Json.lookup "success" props)); [|reflexivity].
  assert (Hr : exists b, hasResults (Json.lookup "results" props) = inr b).
  { unfold hasResults.
    destruct (Json.lookup "results" props) as [[|b|x|s|items|ps]|];
      try discriminate Hp; simpl; eauto;
      match goal with
      | |- context [if ?c then _ else _] => destruct c
      end; simpl; eauto. }
  destruct Hr as [nonEmpty ->].
  assert (Hd : forall r, snd (displayResults r) = inr tt).
  { intros r. unfold displayResults. destruct (lengthIsZero _); reflexivity. }
  destruct (Json.lookup "results" props) as [r|]; [destruct nonEmpty|].
  - specialize (Hd r). destruct (displayResults r) as [t u]. simpl in Hd; subst u.
    destruct (hasMeta (Json.lookup "meta" props)); reflexivity.
  - destruct (hasMeta (Json.lookup "meta" props)); reflexivity.
  - destruct nonEmpty; destruct (hasMeta (Json.lookup "meta" props)); reflexivity.
Qed.

Lemma forEach_plain :
  forall items, forallb plainItem items = true -> snd (forEach items) = inr tt.
Proof.
  induction items as [|item rest IH]; intros H; [reflexivity|].
  simpl in H. apply andb_true_iff in H as [Hi Hr].
  simpl. unfold bind. pose proof (renderItem_plain item Hi) as Hs.
  destruct (renderItem item) as [t1 r1]. simpl in Hs; subst r1.
  specialize (IH Hr). destruct (forEach rest) as [t2 r2]. exact IH.
Qed.

End MoreExecutor.

(** ** The line handler, further *)

Section MoreLines.

Context {host : Host}.
Variable env : Env.
Variable session : Session.

(** The trace of a line that runs a subprocess, up to the report of what
    the subprocess gave. *)
Lemma onLine_shape :
  forall input w command args w' r,
    In (spawn command args) (fst (fst (onLine env session input w))) ->
    spawnSync w command args = (w', r) ->
    exists sql,
      onLine env session input w
      = ((console_log [Text (JS.nl ++ "Executing: " ++ sql)]
            :: fst (debugLine env command args)
            ++ spawn command args
            :: caught (result <- lift r ;; report result) ++ [rl_prompt])%list,
         w', Prompting).
Proof.
  intros input w command args w' r Hin Hs.
  destruct (onLine_spawn env session input w command args Hin) as (sql & Ho & Hc).
  exists sql.
  rewrite Ho, (executeSQL_shape env session sql w command args w' r Hc Hs).
  rewrite thenPrompt_eq. simpl. rewrite <- app_assoc. reflexivity.
Qed.

(** X8. A line runs at most one subprocess, and the world after the line
    is the world that subprocess left; a line that runs none leaves the
    world as it was. *)
Theorem line_runs_at_most_one_subprocess :
  forall input w,
    (spawned (fst (fst (onLine env session input w))) = []
     /\ snd (fst (onLine env session input w)) = w)
    \/ (exists command args,
          spawned (fst (fst (onLine env session input w))) = [command :: args]
          /\ snd (fst (onLine env session input w))
             = fst (spawnSync w command args)).
Proof.
  intros input w.
  destruct (onLine_cases env session input w) as [H | [H | [H | [sql H]]]];
    try (left; rewrite H; split; reflexivity).
  right. destruct (executeSQL_runs env session sql w) as (c & a & Hc).
  exists c, a. rewrite H, spawned_thenPrompt, executeSQL_spawned, Hc.
  split; [reflexivity|].
  destruct (spawnSync w c a) as [w' r] eqn:Hs.
  rewrite (executeSQL_shape env session sql w c a w' r Hc Hs). reflexivity.
Qed.

(** X9. When the response is an array in which no item is [null] and no
    item has an object as [results], rendering cannot throw, whatever
    keys are missing and whatever the types of the other values are: the
    items are rendered one after the other, no failure of the execution
    is reported, and the prompt follows. *)
Theorem plain_batches_never_fail :
  forall input w command args w' result items,
    In (spawn command args) (fst (fst (onLine env session input w))) ->
    spawnSync w command args = (w', inr result) ->
    error result = None ->
    status result = Some 0%Z ->
    JSON_parse (stdout result) = Some (JArr items) ->
    forallb plainItem items = true ->
    failures (fst (fst (onLine env session input w))) = []
    /\ exists sql,
         onLine env session input w
         = ((console_log [Text (JS.nl ++ "Executing: " ++ sql)]
               :: fst (debugLine env command args)
               ++ spawn command args :: fst (forEach items) ++ [rl_prompt])%list,
            w', Prompting).
Proof.
  intros input w command args w' result items Hin Hs He Hz Hp Hi.
  destruct (onLine_shape input w command args w' _ Hin Hs) as (sql & Ho).
  assert (Hr : caught (result0 <- lift (inr result) ;; report result0)
               = fst (forEach items)).
  { unfold bind at 1, lift, report. rewrite He, Hz, Hp. simpl.
    unfold bind, lift. simpl.
    pose proof (forEach_plain items Hi) as Hf.
    destruct (forEach items) as [t u]. simpl in Hf; subst u. reflexivity. }
  rewrite Hr in Ho. split; [|exists sql; exact Ho].
  rewrite Ho. simpl fst. apply failures_none. simpl.
  rewrite forallb_app. simpl. rewrite forallb_app. simpl.
  rewrite andb_true_r. apply andb_true_iff; split.
  - unfold debugLine. destruct (JS.truthyString (DEBUG env)); reflexivity.
  - apply forEach_events; reflexivity.
Qed.

(** X10. A response that is JSON but neither an array nor a string
    ([null], a boolean, a number, an object) cannot be iterated: the
    execution is reported as failed with a [TypeError], nothing is
    rendered, and the prompt follows. *)
Theorem response_that_is_no_array_fails :
  forall input w command args w' result parsed,
    In (spawn command args) (fst (fst (onLine env session input w))) ->
    spawnSync w command args = (w', inr result) ->
    error result = None ->
    status result = Some 0%Z ->
    JSON_parse (stdout result) = Some parsed ->
    (parsed = JNull \/ (exists b, parsed = JBool b) \/ (exists x, parsed = JNum x)
     \/ exists props, parsed = JObj props) ->
    exists sql what,
      onLine env session input w
      = ((console_log [Text (JS.nl ++ "Executing: " ++ sql)]
            :: fst (debugLine env command args)
            ++ [spawn command args;
                console_error [Text "Execution failed:"; Thrown (TypeError what)];
                rl_prompt])%list,
         w', Prompting).
Proof.
  intros input w command args w' result parsed Hin Hs He Hz Hp Hk.
  destruct (onLine_shape input w command args w' _ Hin Hs) as (sql & Ho).
  exists sql, "parsed is not iterable". rewrite Ho.
  unfold bind at 1, lift, report. rewrite He, Hz, Hp. simpl.
  destruct Hk as [-> | [[b ->] | [[x ->] | [props ->]]]]; reflexivity.
Qed.

(** X11. An error of [spawnSync], thrown or returned in [error], is what
    the failure line shows, whatever the status and the captured output
    are: nothing of the output is parsed or rendered. *)
Theorem spawn_error_is_reported_first :
  forall input w command args w' r e,
    In (spawn command args) (fst (fst (onLine env session input w))) ->
    spawnSync w command args = (w', r) ->
    (r = inl e \/ exists result, r = inr result /\ error result = Some e) ->
    exists sql,
      onLine env session input w
      = ((console_log [Text (JS.nl ++ "Executing: " ++ sql)]
            :: fst (debugLine env command args)
            ++ [spawn command args;
                console_error [Text "Execution failed:"; Thrown e];
                rl_prompt])%list,
         w', Prompting).
Proof.
  intros input w command args w' r e Hin Hs Hr.
  destruct (onLine_shape input w command args w' r Hin Hs) as (sql & Ho).
  exists sql. rewrite Ho.
  destruct Hr as [-> | (result & -> & He)]; [reflexivity|].
  unfold bind at 1, lift, report. rewrite He. reflexivity.
Qed.

End MoreLines.

(** ** More facts about the string primitives *)

Module JSFacts2.
Import JS JSFacts.


Lemma trimEnd_idem : forall s, trimEnd (trimEnd s) = trimEnd s.
Proof.
  induction s as [|c s IH]; [reflexivity|].
  simpl. destruct (trimEnd s) as [|d r] eqn:E.
  - destruct (isWhiteSpace c) eqn:Ec; [reflexivity|]. simpl. rewrite Ec. reflexivity.
  - simpl in IH |- *. rewrite IH. reflexivity.
Qed.

Lemma trimStart_trimEnd :
  forall s, trimStart s = s -> trimStart (trimEnd s) = trimEnd s.
Proof.
  intros [|c s] H; [reflexivity|].
  simpl in H. destruct (isWhiteSpace c) eqn:Ec.
  - exfalso. clear -H.
    assert (Hl : forall u, String.length (trimStart u) <= String.length u).
    { induction u as [|a u IH]; simpl; [lia|].
      destruct (isWhiteSpace a); simpl; lia. }
    specialize (Hl s). rewrite H in Hl. simpl in Hl. lia.
  - simpl trimEnd. destruct (trimEnd s); rewrite ?Ec; simpl; rewrite Ec; reflexivity.
Qed.

Lemma trimStart_idem : forall s, trimStart (trimStart s) = trimStart s.
Proof.
  induction s as [|c s IH]; [reflexivity|].
  simpl. destruct (isWhiteSpace c) eqn:Ec; [exact IH|]. simpl. rewrite Ec. reflexivity.
Qed.

Lemma trim_idem : forall s, trim (trim s) = trim s.
Proof.
  intros s. unfold trim.
  rewrite (trimStart_trimEnd (trimStart s) (trimStart_idem s)).
  apply trimEnd_idem.
Qed.

Lemma trimEnd_last :
  forall x d, isWhiteSpace d = false -> trimEnd (x ++ String d "") = x ++ String d "".
Proof.
  induction x as [|a x IH]; intros d Hd; simpl.
  - rewrite Hd. reflexivity.
  - rewrite IH by assumption. destruct x; reflexivity.
Qed.

Lemma trim_enclosed :
  forall c x d,
    isWhiteSpace c = false -> isWhiteSpace d = false ->
    trim (String c (x ++ String d "")) = String c (x ++ String d "").
Proof.
  intros c x d Hc Hd. unfold trim. simpl trimStart. rewrite Hc.
  apply (trimEnd_last (String c x) d Hd).
Qed.

End JSFacts2.

(** ** The loop, further *)

Section MoreLoop.

Context {host : Host}.
Variable env : Env.
Variable session : Session.

Import JSFacts JSFacts2.


(** The statement a line runs, if it runs one. *)
Lemma onLine_statement :
  forall input w,
    spawned (fst (fst (onLine env session input w))) = []
    \/ exists sql,
         onLine env session input w = thenPrompt (executeSQL env session sql w)
         /\ sql <> "" /\ JS.trim sql = sql.
Proof.
  intros input w. unfold onLine.
  destruct (String.eqb (JS.trim input) "") eqn:E0; [left; reflexivity|].
  destruct (String.eqb (JS.toLowerCase (JS.trim input)) ".exit"
            || String.eqb (JS.toLowerCase (JS.trim input)) ".quit");
    [left; reflexivity|].
  destruct (String.eqb (JS.toLowerCase (JS.trim input)) ".help");
    [left; reflexivity|].
  right.
  destruct (String.eqb (JS.toLowerCase (JS.trim input)) ".tables").
  { eexists; split; [reflexivity|]. split; [discriminate|reflexivity]. }
  destruct (JS.startsWith (JS.toLowerCase (JS.trim input)) ".schema").
  { unfold showSchema.
    destruct (nth_error (JS.split " " (JS.trim input)) 1) as [[|c name]|];
      try (eexists; split; [reflexivity|]; split; [discriminate|reflexivity]).
    eexists; split; [reflexivity|]. split; [discriminate|].
    simpl JS.truthyString. cbv beta iota. simpl JS.template.
    change ("SELECT sql FROM sqlite_master WHERE type='table' AND name='"
              ++ String c name ++ "';")
      with (String "S"
              ("ELECT sql FROM sqlite_master WHERE type='table' AND name='"
                 ++ String c name ++ "';")).
    replace ("ELECT sql FROM sqlite_master WHERE type='table' AND name='"
               ++ String c name ++ "';")
      with (("ELECT sql FROM sqlite_master WHERE type='table' AND name='"
               ++ String c name ++ "'") ++ ";")
      by (rewrite !app_assoc_string; reflexivity).
    apply trim_enclosed; reflexivity. }
  exists (JS.trim input). split; [reflexivity|]. split.
  - apply String.eqb_neq. exact E0.
  - apply trim_idem.
Qed.

(** X13. The statement handed to the subprocess is never blank and never
    has white space at its ends: the last word of every command line a
    line produces is non-empty and is its own trimmed form. *)
Theorem statement_is_never_blank_or_padded :
  forall input w cmdline,
    In cmdline (spawned (fst (fst (onLine env session input w)))) ->
    List.last cmdline "" <> ""
    /\ JS.trim (List.last cmdline "") = List.last cmdline "".
Proof.
  intros input w cmdline Hin.
  destruct (onLine_statement input w) as [H | (sql & H & Hne & Ht)].
  - rewrite H in Hin. contradiction.
  - rewrite H, spawned_thenPrompt, executeSQL_spawned in Hin.
    destruct Hin as [<- | []]. rewrite last_commandLine. split; assumption.
Qed.

(** *** Sessions *)

Lemma onLine_exit :
  forall line w,
    isExitLine line = true ->
    onLine env session line w = (exit, w, Terminated 0).
Proof.
  intros line w H. unfold isExitLine in H. unfold onLine. rewrite H.
  destruct (JS.trim line); [discriminate H|reflexivity].
Qed.

Lemma executeSQL_prompts :
  forall sql w, prompts (fst (executeSQL env session sql w)) = 0.
Proof.
  intros sql w. destruct (executeSQL_runs env session sql w) as (c & a & Hc).
  destruct (spawnSync w c a) as [w' r] eqn:Hs.
  rewrite (executeSQL_shape env session sql w c a w' r Hc Hs). simpl.
  assert (Hp : forall t, forallb isConsole t = true -> prompts t = 0).
  { induction t as [|e t IH]; simpl; intros H; [reflexivity|].
    apply andb_true_iff in H as [He Ht]. destruct e; try discriminate; auto. }
  assert (Ha : forall t1 t2, prompts (t1 ++ t2) = prompts t1 + prompts t2).
  { induction t1 as [|e t1 IH]; intros t2; [reflexivity|].
    destruct e; simpl; rewrite ?IH; reflexivity. }
  rewrite Ha, (Hp _ (debugLine_console env c a)). simpl. apply Hp.
  apply caught_console. unfold bind, lift. destruct r as [e|res]; [reflexivity|].
  pose proof (report_console res) as H. destruct (report res); assumption.
Qed.

Lemma prompts_app :
  forall t1 t2, prompts (t1 ++ t2) = prompts t1 + prompts t2.
Proof.
  induction t1 as [|e t1 IH]; intros t2; [reflexivity|].
  destruct e; simpl; rewrite ?IH; reflexivity.
Qed.

(** A line that is no exit line leaves the loop prompting, after exactly
    one prompt. *)
Lemma onLine_continue :
  forall line w,
    isExitLine line = false ->
    snd (onLine env session line w) = Prompting
    /\ prompts (fst (fst (onLine env session line w))) = 1.
Proof.
  intros line w H. unfold isExitLine in H. unfold onLine. rewrite H.
  assert (Hsql : forall sql,
            snd (thenPrompt (executeSQL env session sql w)) = Prompting
            /\ prompts (fst (fst (thenPrompt (executeSQL env session sql w)))) = 1).
  { intros sql. pose proof (executeSQL_prompts sql w) as Hp.
    destruct (executeSQL env session sql w) as [t w']. simpl in *.
    split; [reflexivity|]. rewrite prompts_app, Hp. reflexivity. }
  unfold showTables, showSchema.
  repeat match goal with
         | |- context [if ?b then _ else _] => destruct b
         end; try apply Hsql; split; reflexivity.
Qed.

(** X14. Nothing is handled after [.exit] or [.quit]: the lines that
    follow in the input change neither the trace nor the world. *)
Theorem lines_after_exit_are_ignored :
  forall before line after w,
    isExitLine line = true ->
    runLines env session (before ++ line :: after) w
    = runLines env session (before ++ [line]) w.
Proof.
  intros before line after w H. revert w.
  induction before as [|l before IH]; intros w; simpl.
  - rewrite (onLine_exit line w H). reflexivity.
  - destruct (onLine env session l w) as [[t w'] [|code]]; [|reflexivity].
    rewrite IH. reflexivity.
Qed.

(** X15. A session is the sequence of its lines: for lines without
    [.exit] and [.quit], the trace of a longer input starts with their
    trace, and the rest of the input is handled in the world they
    left. *)
Theorem sessions_compose :
  forall first w,
    forallb (fun line => negb (isExitLine line)) first = true ->
    exists t w',
      runLines env session first w = ((t ++ exitClosed)%list, w')
      /\ forall rest,
           runLines env session (first ++ rest) w
           = ((t ++ fst (runLines env session rest w'))%list,
              snd (runLines env session rest w')).
Proof.
  induction first as [|line first IH]; intros w H.
  - exists [], w. split; [reflexivity|]. intros rest. simpl.
    destruct (runLines env session rest w); reflexivity.
  - simpl in H. apply andb_true_iff in H as [Hl Hf]. apply negb_true_iff in Hl.
    destruct (onLine_continue line w Hl) as [Hs _].
    destruct (onLine env session line w) as [[t1 w1] st] eqn:Ho.
    simpl in Hs; subst st.
    destruct (IH w1 Hf) as (t & w' & Hr & Hc).
    exists (t1 ++ t)%list, w'. split.
    + simpl. rewrite Ho, Hr. rewrite app_assoc. reflexivity.
    + intros rest. simpl. rewrite Ho, (Hc rest). simpl.
      rewrite app_assoc. reflexivity.
Qed.

(** A session that receives no signal is [runLines]. *)
Lemma runInputs_lines :
  forall lines w,
    runInputs env session (List.map line lines) w = runLines env session lines w.
Proof.
  induction lines as [|text rest IH]; intros w; [reflexivity|].
  simpl. destruct (onLine env session text w) as [[t w'] [|code]]; [|reflexivity].
  rewrite IH. reflexivity.
Qed.

(** X16. During the loop the prompt is shown exactly once for every line
    handled and once for every [SIGINT] received before the first [.exit]
    or [.quit], and never otherwise. *)
Theorem one_prompt_per_line_or_signal :
  forall inputs w,
    prompts (fst (runInputs env session inputs w))
    = List.length (inputsBeforeExit inputs).
Proof.
  induction inputs as [|[text|] rest IH]; intros w; [reflexivity| |].
  - simpl. destruct (isExitLine text) eqn:E.
    + rewrite (onLine_exit text w E). reflexivity.
    + destruct (onLine_continue text w E) as [Hs Hp].
      destruct (onLine env session text w) as [[t w'] st]. simpl in Hs, Hp. subst st.
      specialize (IH w'). destruct (runInputs env session rest w') as [t' w''].
      simpl in *. rewrite prompts_app, Hp, IH. reflexivity.
  - simpl. specialize (IH w). destruct (runInputs env session rest w) as [t' w''].
    simpl in *. rewrite IH. reflexivity.
Qed.

Lemma runLines_spawned :
  forall lines w cmdline,
    In cmdline (spawned (fst (runLines env session lines w))) ->
    exists w0 sql, cmdline = (launcher env w0 ++ d1Args session sql)%list.
Proof.
  induction lines as [|line rest IH]; intros w cmdline Hin; [contradiction|].
  simpl in Hin.
  assert (Hl : forall c, In c (spawned (fst (fst (onLine env session line w)))) ->
                 exists w0 sql, c = (launcher env w0 ++ d1Args session sql)%list).
  { intros c Hc.
    destruct (onLine_cases env session line w) as [H | [H | [H | [sql H]]]];
      try (rewrite H in Hc; contradiction).
    rewrite H, spawned_thenPrompt, executeSQL_spawned in Hc.
    destruct Hc as [<- | []]. eauto. }
  destruct (onLine env session line w) as [[t w'] [|code]]; simpl in Hl.
  - specialize (IH w' cmdline).
    destruct (runLines env session rest w') as [t' w'']. simpl in *.
    rewrite spawned_app in Hin. apply in_app_or in Hin as [Hin | Hin]; auto.
  - auto.
Qed.

End MoreLoop.

(** On an input without signals [program] is the parser followed by
    [main]. *)
Lemma program_main :
  forall (host : Host) (env : Env) (argv : list string) (lines : list string)
         (w : World),
    program env argv (List.map line lines) w
    = match Util.parseArgs argv with
      | inl e => inl e
      | inr a => inr (main env a lines w)
      end.
Proof.
  intros host env argv lines w. unfold program, main.
  destruct (Util.parseArgs argv) as [e|a]; [reflexivity|].
  destruct (startup a) as [t [s|]]; [|reflexivity].
  rewrite runInputs_lines. destruct (runLines env s lines w); reflexivity.
Qed.

(** ** The whole program *)

(** X17. The session is fixed at start-up: every subprocess of a run of
    the program is called for the database named by the first positional
    argument and with the locality flag given, after one of the six
    launchers; no subprocess is run with [--help], without a name or
    with both flags. *)
Theorem every_subprocess_serves_the_session :
  forall (host : Host) (env : Env) (a : ParsedArgs) (lines : list string)
         (w : World) (cmdline : list string),
    In cmdline (spawned (fst (main env a lines w))) ->
    help a = false /\ (local a && remote a) = false
    /\ exists name rest prefix sql,
         positionals a = name :: rest /\ name <> ""
         /\ In prefix launchers
         /\ cmdline
            = (prefix ++ ["d1"; "execute"; name] ++ buildFlags a
                 ++ ["--json"; "--command"; sql])%list.
Proof.
  intros host env a lines w cmdline Hin. unfold main in Hin.
  destruct (startup a) as [t [s|]] eqn:Hs.
  - destruct (startup_accepted a t s Hs)
      as (-> & Hh & Hb & name & rest & Hp & Hn & ->).
    split; [exact Hh|]. split; [exact Hb|].
    destruct (runLines env (mkSession name (buildFlags a)) lines w)
      as [t' w'] eqn:Hr.
    simpl in Hin.
    assert (Hin' : In cmdline
                     (spawned (fst (runLines env (mkSession name (buildFlags a))
                                      lines w)))).
    { rewrite Hr. exact Hin. }
    destruct (runLines_spawned env _ lines w cmdline Hin') as (w0 & sql & ->).
    exists name, rest, (launcher env w0), sql. repeat split; try assumption.
    apply launcher_cases.
  - exfalso. unfold startup in Hs.
    destruct (help a); [injection Hs as <-; contradiction|].
    destruct (nth_error (positionals a) 0) as [[|c name]|];
      try (injection Hs as <-; contradiction).
    destruct (local a && remote a); [injection Hs as <-; contradiction|discriminate].
Qed.

(** ** The lock-file search, further *)

Section MoreSearch.

Context {host : Host}.

Lemma probe_agree :
  forall w1 w2 d,
    (forall file, In file (List.map snd managers) ->
       existsSync w1 (Path.join d file) = existsSync w2 (Path.join d file)) ->
    probe w1 d = probe w2 d.
Proof.
  intros w1 w2 d H. unfold probe.
  rewrite !(H _) by (simpl; auto 6). reflexivity.
Qed.

(** X18. The launcher depends on the file system only through the five
    lock-file names in the working directory and its ancestors below
    the root: two worlds that agree there give the same launcher,
    whatever else differs, the root directory included. *)
Theorem launcher_reads_only_lock_files_on_the_walk :
  forall (env : Env) (w1 w2 : World),
    (forall d file,
        In d (visited (cwd env)) -> In file (List.map snd managers) ->
        existsSync w1 (Path.join d file) = existsSync w2 (Path.join d file)) ->
    launcher env w1 = launcher env w2.
Proof.
  intros env w1 w2 H. unfold launcher, findPackageManager.
  destruct (JS.truthyString (npm_config_user_agent env)); [reflexivity|].
  assert (Hf : findPackageManagerFrom w1 (cwd env)
               = findPackageManagerFrom w2 (cwd env)).
  { revert H. generalize (cwd env) as dir.
    induction dir as [|x parent IH]; intros H; [reflexivity|].
    simpl findPackageManagerFrom.
    rewrite (probe_agree w1 w2 (x :: parent)).
    - rewrite IH; [reflexivity|].
      intros d file Hd Hfile. apply H; [right; exact Hd|exact Hfile].
    - intros file Hfile. apply H; [left; reflexivity|exact Hfile]. }
  rewrite Hf. reflexivity.
Qed.

(** X19. [findPackageManager] names a package manager only on evidence:
    its lock file exists in the working directory or an ancestor below
    the root. It answers [npx] when none of these directories holds any
    of the five lock files. *)
Theorem findPackageManager_names_a_lock_file_found :
  forall (w : World) (env : Env),
    (findPackageManager w env = "npx"
     /\ forall d, In d (visited (cwd env)) -> holdsLockFile w d = false)
    \/ exists d manager file,
         In (manager, file) managers
         /\ findPackageManager w env = manager
         /\ In d (visited (cwd env))
         /\ existsSync w (Path.join d file) = true.
Proof.
  intros w env. unfold findPackageManager. generalize (cwd env) as dir.
  induction dir as [|x parent IH].
  - left. split; [reflexivity|]. intros d [].
  - simpl findPackageManagerFrom. unfold probe.
    destruct (existsSync w (Path.join (x :: parent) "pnpm-lock.yaml")) eqn:E1;
      [right; exists (x :: parent), "pnpm", "pnpm-lock.yaml";
       repeat split; simpl; auto 6|].
    destruct (existsSync w (Path.join (x :: parent) "yarn.lock")) eqn:E2;
      [right; exists (x :: parent), "yarn", "yarn.lock";
       repeat split; simpl; auto 6|].
    destruct (existsSync w (Path.join (x :: parent) "bun.lock")) eqn:E3;
      [right; exists (x :: parent), "bun", "bun.lock";
       repeat split; simpl; auto 6|].
    destruct (existsSync w (Path.join (x :: parent) "package-lock.json")) eqn:E4;
      [right; exists (x :: parent), "npm", "package-lock.json";
       repeat split; simpl; auto 6|].
    destruct (existsSync w (Path.join (x :: parent) "deno.lock")) eqn:E5;
      [right; exists (x :: parent), "deno", "deno.lock";
       repeat split; simpl; auto 6|].
    destruct IH as [[Hn Hall] | (d & manager & file & Hm & Hf & Hd & He)].
    + left. split; [exact Hn|]. intros d [<- | Hd]; [|apply Hall; exact Hd].
      unfold holdsLockFile. simpl. rewrite E1, E2, E3, E4, E5. reflexivity.
    + right. exists d, manager, file. repeat split; try assumption.
      right; exact Hd.
Qed.

(** *** The guard before [displayResults] *)

Lemma positive_is_not_zero :
  forall x : float,
    PrimFloat.ltb 0%float x = true -> PrimFloat.eqb x 0%float = false.
Proof.
  intros x H. rewrite FloatAxioms.ltb_spec in H. rewrite FloatAxioms.eqb_spec.
  change (FloatOps.Prim2SF 0%float) with (SpecFloat.S754_zero false) in *.
  unfold SpecFloat.SFltb, SpecFloat.SFeqb in *.
  destruct (FloatOps.Prim2SF x) as [s|s| |s m e]; simpl in *; try discriminate;
    destruct s; simpl in *; try discriminate; reflexivity.
Qed.

(** Under the guard of line 221 [displayResults] prints the dump. *)
Lemma displayed_results_are_dumped :
  forall r : json,
    hasResults (Some r) = inr true ->
    displayResults r = ([console_log [Text (JSON_stringify r)]], inr tt).
Proof.
  intros r H. unfold displayResults.
  assert (Hz : lengthIsZero (Json.length r) = false).
  { unfold hasResults in H. destruct (Json.truthy (Some r)); [|discriminate].
    destruct (Json.length r) as [n|[v|]]; simpl in *.
    - injection H as H. destruct n; [discriminate|reflexivity].
    - destruct v as [|b|x|s|items|props]; try reflexivity.
      injection H as H. apply positive_is_not_zero. exact H.
    - reflexivity. }
  rewrite Hz. reflexivity.
Qed.

Lemma renderItem_dumps :
  (forall r, lengthGreaterThanZero (Json.length r) = inr true ->
             JSON_stringify r <> "No results") ->
  forall item, existsb printsNoResults (fst (renderItem item)) = false.
Proof.
  intros H item. unfold renderItem, bind, lift, emit, ret.
  destruct (Json.get item "success") as [e|success]; [reflexivity|].
  destruct (Json.truthy success).
  - destruct (Json.get item "results") as [e|results]; [reflexivity|].
    destruct (hasResults results) as [e|nonEmpty] eqn:Hr; [reflexivity|].
    assert (Hd : forall m : Try unit,
               m = match results, nonEmpty with
                   | Some r, true => displayResults r
                   | _, _ => ([console_log [Text "No results returned"]], inr tt)
                   end ->
               existsb printsNoResults (fst m) = false).
    { intros m ->. destruct results as [r|]; [destruct nonEmpty|];
        try reflexivity.
      rewrite (displayed_results_are_dumped r Hr). simpl.
      rewrite orb_false_r. apply String.eqb_neq. apply H.
      unfold hasResults in Hr. destruct (Json.truthy (Some r)); [exact Hr|discriminate]. }
    specialize (Hd _ eq_refl).
    destruct (match results, nonEmpty with
              | Some r, true => displayResults r
              | _, _ => ([console_log [Text "No results returned"]], inr tt)
              end) as [t [e|u]]; simpl in Hd |- *; [assumption|].
    destruct (Json.get item "meta") as [e|meta]; simpl.
    + rewrite app_nil_r. assumption.
    + destruct (hasMeta meta); simpl; rewrite existsb_app, Hd; reflexivity.
  - destruct (Json.get item "meta") as [e|meta]; reflexivity.
Qed.

Lemma forEach_dumps :
  (forall r, lengthGreaterThanZero (Json.length r) = inr true ->
             JSON_stringify r <> "No results") ->
  forall items, existsb printsNoResults (fst (forEach items)) = false.
Proof.
  intros H. induction items as [|item rest IH]; [reflexivity|].
  simpl. pose proof (renderItem_dumps H item) as Hi. unfold bind.
  destruct (renderItem item) as [t1 [e|u]]; simpl in *; [assumption|].
  destruct (forEach rest) as [t2 r]. simpl in *.
  rewrite existsb_app, Hi, IH. reflexivity.
Qed.

Lemma report_dumps :
  (forall r, lengthGreaterThanZero (Json.length r) = inr true ->
             JSON_stringify r <> "No results") ->
  forall result, existsb printsNoResults (fst (report result)) = false.
Proof.
  intros H result. unfold report.
  destruct (error result); [reflexivity|].
  destruct (statusIsNotZero _); [reflexivity|].
  destruct (JSON_parse _) as [parsed|]; [|reflexivity].
  unfold bind, lift. destruct (Json.iterate parsed) as [e|items]; [reflexivity|].
  pose proof (forEach_dumps H items) as Hf.
  destruct (forEach items); assumption.
Qed.

(** X20. [executeSQL] never prints the line of the first branch of
    [displayResults]: it calls [displayResults] only with a value whose
    [length] is greater than zero, for which the dump is printed. The
    only line [No results] a trace can hold is a dump that reads so,
    which [JSON.stringify] never produces for such a value. *)
Theorem no_results_branch_is_never_taken :
  forall (env : Env) (session : Session) (sql : string) (w : World),
    (forall r, lengthGreaterThanZero (Json.length r) = inr true ->
               JSON_stringify r <> "No results") ->
    existsb printsNoResults (fst (executeSQL env session sql w)) = false.
Proof.
  intros env session sql w H.
  destruct (executeSQL_runs env session sql w) as (c & a & Hc).
  destruct (spawnSync w c a) as [w' r] eqn:Hs.
  rewrite (executeSQL_shape env session sql w c a w' r Hc Hs).
  simpl fst. simpl existsb. rewrite existsb_app. simpl existsb.
  assert (Hd : existsb printsNoResults (fst (debugLine env c a)) = false).
  { unfold debugLine. destruct (JS.truthyString _); reflexivity. }
  rewrite Hd. simpl.
  unfold bind, lift. destruct r as [e|res]; [reflexivity|].
  pose proof (report_dumps H res) as Hr.
  destruct (report res) as [t [e|u]]; simpl in *; [|assumption].
  rewrite existsb_app, Hr. reflexivity.
Qed.

End MoreSearch.

(** ** The build script *)

Section BuildFacts.

Context {host : Host} {shell : Build.Shell}.

Lemma lookup_setProp_same :
  forall k v props, Json.lookup k (Build.setProp k v props) = Some v.
Proof.
  intros k v. induction props as [|[k' v'] rest IH]; simpl.
  - rewrite String.eqb_refl. reflexivity.
  - destruct (String.eqb k k') eqn:E; simpl; rewrite ?String.eqb_refl, ?E; auto.
Qed.

Lemma lookup_setProp_other :
  forall k k' v props,
    k' <> k -> Json.lookup k' (Build.setProp k v props) = Json.lookup k' props.
Proof.
  intros k k' v props Hne. apply String.eqb_neq in Hne.
  induction props as [|[k0 v0] rest IH]; simpl.
  - rewrite Hne. reflexivity.
  - destruct (String.eqb k k0) eqn:E; simpl.
    + apply String.eqb_eq in E. subst k0. rewrite Hne. reflexivity.
    + rewrite IH. reflexivity.
Qed.

Lemma lookup_removeProp_same :
  forall k props, Json.lookup k (Build.removeProp k props) = None.
Proof.
  intros k. induction props as [|[k' v'] rest IH]; simpl; [reflexivity|].
  destruct (String.eqb k k') eqn:E; simpl; rewrite ?E; exact IH.
Qed.

Lemma lookup_removeProp_other :
  forall k k' props,
    k' <> k -> Json.lookup k' (Build.removeProp k props) = Json.lookup k' props.
Proof.
  intros k k' props Hne. apply String.eqb_neq in Hne.
  induction props as [|[k0 v0] rest IH]; simpl; [reflexivity|].
  destruct (String.eqb k k0) eqn:E; simpl.
  - apply String.eqb_eq in E. subst k0. rewrite Hne. exact IH.
  - rewrite IH. reflexivity.
Qed.

(** The three commands after the write, whatever they do. *)
Lemma commands_only :
  forall fs,
    forall s,
      In s (fst (fst (Build.bind (Build.sh "deno bundle mod.ts > npm/mod.js")
                        (fun _ =>
                           Build.bind (Build.sh "cp README.md npm/README.md")
                             (fun _ => Build.sh "deno fmt")) fs))) ->
      exists c, s = Build.ran c.
Proof.
  intros fs s. unfold Build.bind, Build.sh.
  destruct (Build.run fs "deno bundle mod.ts > npm/mod.js") as [fs1 [e1|]]; simpl.
  { intros [<- | []]; eauto. }
  destruct (Build.run fs1 "cp README.md npm/README.md") as [fs2 [e2|]]; simpl.
  { intros [<- | [<- | []]]; eauto. }
  destruct (Build.run fs2 "deno fmt") as [fs3 [e3|]]; simpl;
    intros [<- | [<- | [<- | []]]]; eauto.
Qed.

(** X21. When both files hold JSON objects, the first thing the build
    does is to write [npm/package.json], as the dump of an object whose
    [version] is the one of [deno.json] (none, if [deno.json] has none)
    and whose other properties are those of the old package; after it
    only commands are run. *)
Theorem build_syncs_the_version :
  forall fs denoText npmText denoProps npmProps,
    Build.readFileSync fs "deno.json" = inr denoText ->
    JSON_parse denoText = Some (JObj denoProps) ->
    Build.readFileSync fs "npm/package.json" = inr npmText ->
    JSON_parse npmText = Some (JObj npmProps) ->
    exists written rest,
      fst (fst (Build.build fs))
      = Build.wrote "npm/package.json" (JSON_stringify (JObj written) ++ JS.nl)
          :: rest
      /\ Json.lookup "version" written = Json.lookup "version" denoProps
      /\ (forall k, k <> "version" ->
            Json.lookup k written = Json.lookup k npmProps)
      /\ (forall s, In s rest -> exists c, s = Build.ran c).
Proof.
  intros fs denoText npmText denoProps npmProps Hr1 Hp1 Hr2 Hp2.
  exists (match Json.lookup "version" denoProps with
          | Some v => Build.setProp "version" v npmProps
          | None => Build.removeProp "version" npmProps
          end).
  unfold Build.build.
  unfold Build.bind at 1, Build.read at 1. rewrite Hr1.
  unfold Build.bind at 1, Build.parse at 1, Build.lift at 1. rewrite Hp1.
  unfold Build.bind at 1, Build.read at 1. rewrite Hr2.
  unfold Build.bind at 1, Build.parse at 1, Build.lift at 1. rewrite Hp2.
  unfold Build.bind at 1, Build.lift at 1. simpl Json.get. cbv beta iota.
  unfold Build.bind at 1, Build.lift at 1. simpl Build.assignVersion. cbv beta iota.
  set (written := match Json.lookup "version" denoProps with
                  | Some v => Build.setProp "version" v npmProps
                  | None => Build.removeProp "version" npmProps
                  end).
  unfold Build.bind at 1, Build.write at 1.
  destruct (Build.writeFileSync fs "npm/package.json"
              (JSON_stringify (JObj written) ++ JS.nl)) as [fs1 [e|]].
  - exists []. simpl. repeat split.
    + subst written. destruct (Json.lookup "version" denoProps);
        [apply lookup_setProp_same|apply lookup_removeProp_same].
    + intros k Hk. subst written. destruct (Json.lookup "version" denoProps);
        [apply lookup_setProp_other|apply lookup_removeProp_other]; exact Hk.
    + intros s [].
  - pose proof (commands_only fs1) as Hc.
    destruct (Build.bind (Build.sh "deno bundle mod.ts > npm/mod.js")
                (fun _ =>
                   Build.bind (Build.sh "cp README.md npm/README.md")
                     (fun _ => Build.sh "deno fmt")) fs1) as [[rest fs2] r].
    exists rest. simpl. repeat split.
    + subst written. destruct (Json.lookup "version" denoProps);
        [apply lookup_setProp_same|apply lookup_removeProp_same].
    + intros k Hk. subst written. destruct (Json.lookup "version" denoProps);
        [apply lookup_setProp_other|apply lookup_removeProp_other]; exact Hk.
    + exact Hc.
Qed.

(** X22. A build fails before it writes or runs anything, and leaves the
    file system as it was, when one of the two files cannot be read or
    does not hold JSON, and also when [deno.json] holds [null] or
    [npm/package.json] holds [null] or a primitive value. *)
Theorem build_fails_before_writing :
  forall fs,
    (forall file,
        In file ["deno.json"; "npm/package.json"] ->
        ((exists e, Build.readFileSync fs file = inl e)
         \/ exists text,
              Build.readFileSync fs file = inr text /\ JSON_parse text = None) ->
        exists e, Build.build fs = ([], fs, inl e))
    /\ (forall denoText npmText denoConfig npmPackage,
          Build.readFileSync fs "deno.json" = inr denoText ->
          JSON_parse denoText = Some denoConfig ->
          Build.readFileSync fs "npm/package.json" = inr npmText ->
          JSON_parse npmText = Some npmPackage ->
          (denoConfig = JNull \/ npmPackage = JNull
           \/ (exists b, npmPackage = JBool b) \/ (exists x, npmPackage = JNum x)
           \/ exists s, npmPackage = JStr s) ->
          exists what, Build.build fs = ([], fs, inl (TypeError what))).
Proof.
  intros fs. split.
  - intros file Hfile Hbad. unfold Build.build, Build.bind, Build.read,
      Build.parse, Build.lift.
    destruct (Build.readFileSync fs "deno.json") as [e1|text1] eqn:Hr1;
      [eexists; reflexivity|].
    destruct (JSON_parse text1) as [denoConfig|] eqn:Hp1; [|eexists; reflexivity].
    destruct (Build.readFileSync fs "npm/package.json") as [e2|text2] eqn:Hr2;
      [eexists; reflexivity|].
    destruct (JSON_parse text2) as [npmPackage|] eqn:Hp2; [|eexists; reflexivity].
    exfalso. destruct Hfile as [<- | [<- | []]];
      destruct Hbad as [[e He] | (text & Ht & Hn)]; congruence.
  - intros denoText npmText denoConfig npmPackage Hr1 Hp1 Hr2 Hp2 Hk.
    unfold Build.build, Build.bind, Build.read, Build.parse, Build.lift.
    rewrite Hr1, Hp1, Hr2, Hp2.
    destruct denoConfig as [|b|x|s|items|props]; try (eexists; reflexivity);
      simpl Json.get; cbv beta iota;
      destruct Hk as [Hk | [-> | [[b' ->] | [[x' ->] | [s' ->]]]]];
      try discriminate Hk; eexists; reflexivity.
Qed.

(** X23. The steps of a build are always an initial part of: write
    [npm/package.json], bundle, copy the README, format; a step is never
    taken before the ones in front of it, and a build that ends without
    an error has taken all four. *)
Theorem build_steps_are_in_order :
  forall fs,
  exists n data,
    fst (fst (Build.build fs)) = List.firstn n (Build.allSteps data)
    /\ (snd (Build.build fs) = inr tt -> n = 4).
Proof.
  intros fs. destruct (Build.build fs) as [[steps fs'] r] eqn:Hb.
  unfold Build.build, Build.bind, Build.read, Build.parse, Build.lift,
    Build.write, Build.sh in Hb. simpl fst. simpl snd.
  destruct (Build.readFileSync fs "deno.json") as [e1|text1];
    [injection Hb as <- _ <-; exists 0, ""; split; [reflexivity|discriminate]|].
  destruct (JSON_parse text1) as [denoConfig|];
    [|injection Hb as <- _ <-; exists 0, ""; split; [reflexivity|discriminate]].
  destruct (Build.readFileSync fs "npm/package.json") as [e2|text2];
    [injection Hb as <- _ <-; exists 0, ""; split; [reflexivity|discriminate]|].
  destruct (JSON_parse text2) as [npmPackage|];
    [|injection Hb as <- _ <-; exists 0, ""; split; [reflexivity|discriminate]].
  destruct (Json.get denoConfig "version") as [e3|version];
    [injection Hb as <- _ <-; exists 0, ""; split; [reflexivity|discriminate]|].
  destruct (Build.assignVersion npmPackage version) as [e4|written];
    [injection Hb as <- _ <-; exists 0, ""; split; [reflexivity|discriminate]|].
  destruct (Build.writeFileSync fs "npm/package.json"
              (JSON_stringify written ++ JS.nl)) as [fs1 [e|]];
    [injection Hb as <- _ <-; exists 1, (JSON_stringify written ++ JS.nl);
     split; [reflexivity|discriminate]|].
  destruct (Build.run fs1 "deno bundle mod.ts > npm/mod.js") as [fs2 [e|]];
    [injection Hb as <- _ <-; exists 2, (JSON_stringify written ++ JS.nl);
     split; [reflexivity|discriminate]|].
  destruct (Build.run fs2 "cp README.md npm/README.md") as [fs3 [e|]];
    [injection Hb as <- _ <-; exists 3, (JSON_stringify written ++ JS.nl);
     split; [reflexivity|discriminate]|].
  destruct (Build.run fs3 "deno fmt") as [fs4 [e|]];
    injection Hb as <- _ <-; exists 4, (JSON_stringify written ++ JS.nl);
    split; reflexivity.
Qed.

End BuildFacts.

(** ** Concrete runs, further *)

(** X7 on a response with [null] between two batches. *)
Lemma rendering_stops_at_the_first_throw_witness :
  forEach (host := Demo.host) ([Demo.batch] ++ JNull :: [Demo.batch])
  = ([console_log [Text "Success"]; console_log [Text "[ { id: 1 } ]"]],
     inl (TypeError "Cannot read properties of null (reading 'success')")).
Proof.
  rewrite (proj2 (rendering_stops_at_the_first_throw (host := Demo.host)
                    [Demo.batch] JNull [Demo.batch] _
                    (renderItem_null (host := Demo.host)))
             eq_refl).
  reflexivity.
Defined.

(** X9 on a batch without [results] and [meta] and on an item that is a
    string. *)
Lemma plain_batches_never_fail_witness :
  exists sql,
    onLine (host := Demo2.shapes) Demo.env Demo.session "SELECT 3;" []
    = ((console_log [Text (JS.nl ++ "Executing: " ++ sql)]
          :: [spawn "npx"
                ["wrangler"; "d1"; "execute"; "mydb"; "--local"; "--json";
                 "--command"; "SELECT 3;"];
              console_log [Text "Success"];
              console_log [Text "No results returned"];
              console_error [Text "Query failed"];
              console_error [Text "Meta:"; Value None];
              rl_prompt])%list,
       [], Prompting).
Proof.
  destruct (plain_batches_never_fail (host := Demo2.shapes)
              Demo.env Demo.session "SELECT 3;" [] "npx"
              ["wrangler"; "d1"; "execute"; "mydb"; "--local"; "--json";
               "--command"; "SELECT 3;"]
              [] (mkSpawnSyncReturns None (Some 0%Z) "SELECT 3;")
              [JObj [("success", JBool true)]; JStr "x"])
    as (_ & sql & Ho); try reflexivity.
  - simpl. right; left; reflexivity.
  - exists sql. exact Ho.
Defined.

(** X10 on a response that is an object. *)
Lemma response_that_is_no_array_fails_witness :
  exists sql what,
    onLine (host := Demo2.shapes) Demo.env Demo.session "SELECT 1;" []
    = ((console_log [Text (JS.nl ++ "Executing: " ++ sql)]
          :: [spawn "npx"
                ["wrangler"; "d1"; "execute"; "mydb"; "--local"; "--json";
                 "--command"; "SELECT 1;"];
              console_error [Text "Execution failed:"; Thrown (TypeError what)];
              rl_prompt])%list,
       [], Prompting).
Proof.
  destruct (response_that_is_no_array_fails (host := Demo2.shapes)
              Demo.env Demo.session "SELECT 1;" [] "npx"
              ["wrangler"; "d1"; "execute"; "mydb"; "--local"; "--json";
               "--command"; "SELECT 1;"]
              [] (mkSpawnSyncReturns None (Some 0%Z) "SELECT 1;")
              (JObj [("error", JStr "no such table")]))
    as (sql & what & Ho); try reflexivity.
  - simpl. right; left; reflexivity.
  - right; right; right. eexists; reflexivity.
  - exists sql, what. exact Ho.
Defined.

(** X11 on a result with [error] set beside status 0 and a response
    that would parse. *)
Lemma spawn_error_is_reported_first_witness :
  exists sql,
    onLine (host := Demo2.failing) Demo.env Demo.session "SELECT 1;" []
    = ((console_log [Text (JS.nl ++ "Executing: " ++ sql)]
          :: [spawn "npx"
                ["wrangler"; "d1"; "execute"; "mydb"; "--local"; "--json";
                 "--command"; "SELECT 1;"];
              console_error
                [Text "Execution failed:"; Thrown (HostError "spawn npx ENOENT")];
              rl_prompt])%list,
       [], Prompting).
Proof.
  destruct (spawn_error_is_reported_first (host := Demo2.failing)
              Demo.env Demo.session "SELECT 1;" [] "npx"
              ["wrangler"; "d1"; "execute"; "mydb"; "--local"; "--json";
               "--command"; "SELECT 1;"]
              [] (inr (mkSpawnSyncReturns (Some (HostError "spawn npx ENOENT"))
                         (Some 0%Z) "[ok]"))
              (HostError "spawn npx ENOENT"))
    as (sql & Ho).
  - simpl. right; left; reflexivity.
  - reflexivity.
  - right. eexists; split; reflexivity.
  - exists sql. exact Ho.
Defined.


(** X13 on a padded statement. *)
Lemma statement_is_never_blank_or_padded_witness :
  List.last ["npx"; "wrangler"; "d1"; "execute"; "mydb"; "--local"; "--json";
             "--command"; "SELECT 1;"] "" <> ""
  /\ JS.trim "SELECT 1;" = "SELECT 1;".
Proof.
  apply (statement_is_never_blank_or_padded (host := Demo.host)
           Demo.env Demo.session "   SELECT 1;  " []
           ["npx"; "wrangler"; "d1"; "execute"; "mydb"; "--local"; "--json";
            "--command"; "SELECT 1;"]).
  simpl. left; reflexivity.
Defined.

(** X14 on a statement after [.QUIT]. *)
Lemma lines_after_exit_are_ignored_witness :
  runLines (host := Demo.host) Demo.env Demo.session
    ([".help"] ++ ".QUIT" :: ["SELECT 1;"]) []
  = runLines (host := Demo.host) Demo.env Demo.session ([".help"] ++ [".QUIT"]) [].
Proof.
  apply (lines_after_exit_are_ignored (host := Demo.host) Demo.env Demo.session
           [".help"] ".QUIT" ["SELECT 1;"] []).
  reflexivity.
Defined.

(** X15 on two statements. *)
Lemma sessions_compose_witness :
  exists t w',
    runLines (host := Demo.host) Demo.env Demo.session ["SELECT 1;"] []
    = ((t ++ exitClosed)%list, w')
    /\ runLines (host := Demo.host) Demo.env Demo.session
         (["SELECT 1;"] ++ ["SELECT 2;"]) []
       = ((t ++ fst (runLines (host := Demo.host) Demo.env Demo.session
                       ["SELECT 2;"] w'))%list,
          snd (runLines (host := Demo.host) Demo.env Demo.session
                 ["SELECT 2;"] w')).
Proof.
  destruct (sessions_compose (host := Demo.host) Demo.env Demo.session
              ["SELECT 1;"] [] eq_refl)
    as (t & w' & Hr & Hc).
  exists t, w'. split; [exact Hr|apply Hc].
Defined.

(** X17 on a run with two statements. *)
Lemma every_subprocess_serves_the_session_witness :
  exists name rest prefix sql,
    positionals Demo.args = name :: rest
    /\ ["npx"; "wrangler"; "d1"; "execute"; "mydb"; "--local"; "--json";
        "--command"; "SELECT 2;"]
       = (prefix ++ ["d1"; "execute"; name] ++ buildFlags Demo.args
            ++ ["--json"; "--command"; sql])%list.
Proof.
  destruct (every_subprocess_serves_the_session Demo.host Demo.env Demo.args
              ["SELECT 1;"; "SELECT 2;"] []
              ["npx"; "wrangler"; "d1"; "execute"; "mydb"; "--local"; "--json";
               "--command"; "SELECT 2;"])
    as (_ & _ & name & rest & prefix & sql & Hp & _ & _ & Hc).
  - simpl. right; left; reflexivity.
  - exists name, rest, prefix, sql. split; [exact Hp|exact Hc].
Defined.

(** X18 on a world with a lock file in the root directory only. *)
Lemma launcher_reads_only_lock_files_on_the_walk_witness :
  launcher (host := Demo.host) Demo.env [["pnpm-lock.yaml"]]
  = launcher (host := Demo.host) Demo.env [].
Proof.
  apply (launcher_reads_only_lock_files_on_the_walk (host := Demo.host) Demo.env
           [["pnpm-lock.yaml"]] []).
  intros d file [<- | [<- | []]] Hf; simpl in Hf;
    repeat destruct Hf as [<- | Hf]; try reflexivity; contradiction.
Defined.

(** X20 on a statement answered with one row. *)
Lemma no_results_branch_is_never_taken_witness :
  existsb printsNoResults
    (fst (executeSQL (host := Demo.host) Demo.env Demo.session "SELECT 1;" []))
  = false.
Proof.
  apply (no_results_branch_is_never_taken (host := Demo.host)).
  intros r _. discriminate.
Defined.

(** X21 on a configuration with version 1 and a package with version 0. *)
Lemma build_syncs_the_version_witness :
  exists written rest,
    fst (fst (Build.build (host := Demo2.buildHost) (shell := Demo2.shell)
                [("deno.json", "deno"); ("npm/package.json", "npm")]))
    = Build.wrote "npm/package.json" ("{}" ++ JS.nl) :: rest
    /\ Json.lookup "version" written = Some (JNum 1%float)
    /\ Json.lookup "bin" written = Some (JStr "mod.js").
Proof.
  destruct (build_syncs_the_version (host := Demo2.buildHost) (shell := Demo2.shell)
              [("deno.json", "deno"); ("npm/package.json", "npm")]
              "deno" "npm"
              [("name", JStr "d1-repl"); ("version", JNum 1%float)]
              [("name", JStr "d1-repl"); ("version", JNum 0%float);
               ("bin", JStr "mod.js")]
              eq_refl eq_refl eq_refl eq_refl)
    as (written & rest & Hs & Hv & Hk & _).
  exists written, rest. split; [exact Hs|]. split; [exact Hv|].
  apply Hk. discriminate.
Defined.

(** X22 on a directory without [deno.json]. *)
Lemma build_fails_before_writing_witness :
  exists e,
    Build.build (host := Demo2.buildHost) (shell := Demo2.shell)
      [("npm/package.json", "npm")]
    = ([], [("npm/package.json", "npm")], inl e).
Proof.
  apply (proj1 (build_fails_before_writing (host := Demo2.buildHost)
                  (shell := Demo2.shell) [("npm/package.json", "npm")])
           "deno.json").
  - left; reflexivity.
  - left. eexists; reflexivity.
Defined.

(** ** The program's exit code and commands with arguments *)

(** X24. Every run of the program on a finite input ends the process
    exactly once. When the parser refuses the argument vector, its error
    is not caught and the process ends with code 1, the program having
    printed nothing. Otherwise the trace holds exactly one exit: with
    code 1 when the top-level checks refuse the arguments (no [--help],
    and the name missing or empty or both locality flags given), with
    code 0 in every other case, whatever the lines, the signals and the
    subprocesses do. *)
Theorem program_exits_once :
  forall (host : Host) (env : Env) (argv : list string) (inputs : list input)
         (w : World),
    (exists e,
        accepted argv = false
        /\ program env argv inputs w = inl e
        /\ exitCode (program env argv inputs w) = Some 1%Z)
    \/ (exists a t w' code,
          Util.parseArgs argv = inr a
          /\ program env argv inputs w = inr (t, w')
          /\ exits t = [code]
          /\ exitCode (program env argv inputs w) = Some code
          /\ (code = 1%Z /\ help a = false /\ snd (startup a) = None
              \/ code = 0%Z /\ (help a = true \/ exists s, snd (startup a) = Some s))).
Proof.
  intros host env argv inputs w.
  assert (Hrun : forall s ins w0, exits (fst (runInputs env s ins w0)) = [0%Z]).
  { intros s. induction ins as [|[text|] rest IH]; intros w0; [reflexivity| |].
    - simpl runInputs.
      destruct (onLine_exits env s text w0) as [[Hst Hx] | [Hst Hx]];
        destruct (onLine env s text w0) as [[t w'] st];
        simpl in Hst, Hx; subst st.
      + exact Hx.
      + specialize (IH w'). destruct (runInputs env s rest w') as [t' w''].
        simpl in *. rewrite exits_app, Hx, IH. reflexivity.
    - simpl runInputs. specialize (IH w0).
      destruct (runInputs env s rest w0) as [t' w'']. simpl in *. exact IH. }
  destruct (accepted argv) eqn:Ea.
  2:{ left. destruct (parseArgs_refused argv Ea) as [e He].
      exists e. rewrite (program_refused host env argv inputs w e He).
      repeat split. }
  right. pose proof (parseArgs_accepted argv Ea) as Hp.
  set (a := mkParsedArgs _ _ _ _) in Hp. exists a.
  unfold program. rewrite Hp.
  assert (Hdone : forall t code,
             exits t = [code] ->
             exitCode (@inr exn _ (t, w)) = Some code).
  { intros t code Hx. simpl. rewrite Hx. reflexivity. }
  destruct (startup a) as [t [s|]] eqn:Hs.
  - destruct (startup_accepted a t s Hs) as (-> & Hh & _).
    specialize (Hrun s inputs w).
    destruct (runInputs env s inputs w) as [t' w']. simpl in Hrun.
    exists (start s ++ t')%list, w', 0%Z.
    split; [reflexivity|]. split; [reflexivity|].
    split; [exact Hrun|]. split; [simpl; rewrite Hrun; reflexivity|].
    right. split; [reflexivity|]. right. exists s. reflexivity.
  - exists t, w. unfold startup in Hs. destruct (help a) eqn:Hh.
    { injection Hs as <-. exists 0%Z.
      split; [reflexivity|]. split; [reflexivity|]. split; [reflexivity|].
      split; [reflexivity|]. right. split; [reflexivity|]. left; reflexivity. }
    exists 1%Z.
    assert (Ht : exits t = [1%Z]).
    { destruct (nth_error (positionals a) 0) as [[|c name]|];
        [| destruct (local a && remote a); [|discriminate] |];
        injection Hs as <-; reflexivity. }
    split; [reflexivity|]. split; [reflexivity|]. split; [exact Ht|].
    split; [apply Hdone; exact Ht|].
    left. split; [reflexivity|]. split; reflexivity.
Qed.

Section CommandsWithArguments.

Context {host : Host}.
Variable env : Env.
Variable session : Session.

Import JSFacts.

(** X25. Of the dot-commands only [.schema] takes an argument: [.exit],
    [.quit], [.help] and [.tables] followed by a space and a word are not
    recognised as commands, and the whole line is forwarded as SQL. *)
Theorem commands_with_an_argument_are_forwarded :
  forall command arg w,
    In command [".exit"; ".quit"; ".help"; ".tables"] ->
    arg <> "" -> noWhiteSpace arg = true ->
    onLine env session (command ++ " " ++ arg) w
    = thenPrompt (executeSQL env session (command ++ " " ++ arg) w).
Proof.
  intros command arg w Hc Hne Hw.
  assert (Ht : JS.trimEnd (" " ++ arg) = " " ++ arg).
  { simpl. rewrite <- (app_empty_r arg) at 1.
    rewrite trimEnd_noWhiteSpace_app by assumption. simpl. rewrite app_empty_r.
    destruct arg; [contradiction|reflexivity]. }
  simpl in Hc.
  destruct Hc as [<- | [<- | [<- | [<- | []]]]];
    unfold onLine;
    (rewrite trim_noWhiteSpace_app by reflexivity);
    rewrite Ht; reflexivity.
Qed.

End CommandsWithArguments.

(** X25 on [.exit now]. *)
Lemma commands_with_an_argument_are_forwarded_witness :
  spawned (fst (fst (onLine (host := Demo.host) Demo.env Demo.session
                       (".exit" ++ " " ++ "now") [])))
  = [["npx"; "wrangler"; "d1"; "execute"; "mydb"; "--local"; "--json"; "--command";
      ".exit now"]].
Proof.
  rewrite (commands_with_an_argument_are_forwarded (host := Demo.host)
             Demo.env Demo.session ".exit" "now" []
             (or_introl eq_refl) ltac:(discriminate) eq_refl).
  reflexivity.
Defined.
